(** * The Discord gateway session of [flare], embedded in Rocq

    The class [DiscordGateway] (discord-gateway.ts) is an event-driven
    object: the caller invokes [connect] and [disconnect], the [ws] socket
    delivers [open], [message], [error] and [close] events, [setInterval]
    delivers heartbeat ticks and [timers/promises.setTimeout] resumes a
    suspended [async] method.  Every handler runs to completion before the
    next event is taken, so the embedding is a state-passing one: each method
    is a function on a [World] holding the fields of the object together
    with the part of the runtime the methods act on (the sockets, the
    interval timers, the pending delays, the frames written and the
    console).  A method body that stops at an [await] of a delay leaves a
    pending delay carrying its continuation; the event that fires the delay
    runs the continuation. *)

From stdpp Require Import base gmap list strings.
From Stdlib Require Import ZArith.

Local Open Scope string_scope.
Local Open Scope list_scope.
Local Open Scope Z_scope.

(** ** JavaScript values

    [payload : any] is whatever [JSON.parse] returned; a property that is
    missing reads as [undefined].  Numbers are the integers (opcodes,
    sequence numbers, intervals and close codes all are). *)

#[local] Set Warnings "-register-all".

Inductive jsval : Type :=
| VUndef
| VNull
| VBool (b : bool)
| VNum (n : Z)
| VStr (s : string)
| VArr (items : list jsval)
| VObj (fields : list (string * jsval)).

(** The own property [k] of an object literal, [undefined] when missing. *)
Fixpoint own_prop (k : string) (fields : list (string * jsval)) : jsval :=
  match fields with
  | [] => VUndef
  | (k', v) :: rest => if String.eqb k k' then v else own_prop k rest
  end.

(** [v.k], as used by destructuring ([const { k } = v]) and member access.
    Reading a property of [null] or [undefined] throws a TypeError ([None]);
    the property names used by the gateway are no built-in property of a
    boolean, number, string or array, so they read as [undefined] there. *)
Definition get_prop (v : jsval) (k : string) : option jsval :=
  match v with
  | VUndef | VNull => None
  | VObj fields => Some (own_prop k fields)
  | _ => Some VUndef
  end.

(** [v !== null] *)
Definition not_null (v : jsval) : bool :=
  match v with
  | VNull => false
  | _ => true
  end.

(** [v === n] for a number literal [n] *)
Definition is_num (v : jsval) (n : Z) : bool :=
  match v with
  | VNum m => Z.eqb m n
  | _ => false
  end.

(** [v === s] for a string literal [s] *)
Definition is_str (v : jsval) (s : string) : bool :=
  match v with
  | VStr s' => String.eqb s' s
  | _ => false
  end.

(** Whether a value can be converted to a primitive, as a template literal
    ([`${v}`]) and a numeric coercion do.  A plain object is converted through
    its [toString]: the inherited one answers, an own property of that name
    (never callable in a value that came from [JSON.parse]) leaves no method
    that returns a primitive, and the conversion throws a TypeError.  An
    array is converted by joining the conversions of its items. *)
Fixpoint convertible (v : jsval) : bool :=
  match v with
  | VArr items => forallb convertible items
  | VObj fields =>
      negb (existsb (fun kv => String.eqb (fst kv) "toString") fields)
  | _ => true
  end.

(** The JSON document [JSON.stringify] writes for a value: a property whose
    value is [undefined] is left out, an [undefined] array item becomes
    [null]. *)
Fixpoint JSON_stringify (v : jsval) : jsval :=
  match v with
  | VArr items =>
      VArr (map (fun x => match x with
                          | VUndef => VNull
                          | _ => JSON_stringify x
                          end) items)
  | VObj fields =>
      VObj ((fix props (fs : list (string * jsval)) : list (string * jsval) :=
               match fs with
               | [] => []
               | (k, x) :: rest =>
                   match x with
                   | VUndef => props rest
                   | _ => (k, JSON_stringify x) :: props rest
                   end
               end) fields)
  | _ => v
  end.

(** ** Opcodes *)

Inductive OpCode : Type :=
| DISPATCH
| HEARTBEAT
| IDENTIFY
| PRESENCE_UPDATE
| VOICE_STATE_UPDATE
| RESUME
| RECONNECT
| REQUEST_GUILD_MEMBERS
| INVALID_SESSION
| HELLO
| HEARTBEAT_ACK.

Definition OpCode_value (op : OpCode) : Z :=
  match op with
  | DISPATCH => 0
  | HEARTBEAT => 1
  | IDENTIFY => 2
  | PRESENCE_UPDATE => 3
  | VOICE_STATE_UPDATE => 4
  | RESUME => 6
  | RECONNECT => 7
  | REQUEST_GUILD_MEMBERS => 8
  | INVALID_SESSION => 9
  | HELLO => 10
  | HEARTBEAT_ACK => 11
  end.

(** ** The object and the runtime it acts on *)

(** Handles: a socket and an interval timer are objects, identified here by
    the order of their creation. *)
Definition sock_id : Type := nat.
Definition timer_id : Type := nat.

(** The private fields of [DiscordGateway]. *)
Record DiscordGateway : Type := mkGateway {
  ws : option sock_id;
  sequence : jsval;
  heartbeatInterval : option timer_id;
  sessionId : jsval;
  reconnectAttempts : Z;
  token : string
}.

Definition MAX_RECONNECT_ATTEMPTS : Z := 5.

Inductive ReadyState : Type :=
| CONNECTING
| OPEN
| CLOSING
| CLOSED.

(** A [ws] socket: its [readyState] and whether the four handlers of
    [setupWebSocketHandlers] are attached. *)
Record WebSocket : Type := mkSocket {
  readyState : ReadyState;
  wired : bool
}.

(** What is left to run once an awaited delay has elapsed.  Both delays of
    the class are followed by [await this.connect()] and nothing else. *)
Inductive Cont : Type :=
| KConnect.

(** The calls of [console.log] and [console.error], one constructor each. *)
Inductive LogEntry : Type :=
| LogConnectFailed
| LogConnected
| LogParseFailed
| LogSocketError
| LogClosed (code : Z) (reason : string)
| LogHeartbeatAck
| LogSessionInvalidated
| LogUnhandledOp (op : jsval)
| LogBotReady
| LogDispatch (event : jsval)
| LogHeartbeatSent
| LogMaxReconnect
| LogReconnectIn (delay : Z).

Record World : Type := mkWorld {
  gw : DiscordGateway;
  sockets : gmap sock_id WebSocket;
  next_socket : sock_id;
  (** the interval timers that are armed, with the period they were given *)
  timers : gmap timer_id jsval;
  next_timer : timer_id;
  (** the delays being awaited, oldest first *)
  pending : list (Z * Cont);
  (** the frames handed to [ws.send], oldest first *)
  sent : list (sock_id * jsval);
  console : list LogEntry;
  (** promises of [handlePayload] that were rejected with nobody awaiting *)
  unhandled : nat;
  (** [process.platform] *)
  platform : string
}.

(** *** Field updates *)

Definition with_gw (f : DiscordGateway -> DiscordGateway) (w : World) : World :=
  mkWorld (f (gw w)) (sockets w) (next_socket w) (timers w) (next_timer w)
          (pending w) (sent w) (console w) (unhandled w) (platform w).

Definition set_ws (s : sock_id) : World -> World :=
  with_gw (fun g => mkGateway (Some s) (sequence g) (heartbeatInterval g)
                              (sessionId g) (reconnectAttempts g) (token g)).

Definition set_sequence (v : jsval) : World -> World :=
  with_gw (fun g => mkGateway (ws g) v (heartbeatInterval g)
                              (sessionId g) (reconnectAttempts g) (token g)).

Definition set_heartbeatInterval (t : timer_id) : World -> World :=
  with_gw (fun g => mkGateway (ws g) (sequence g) (Some t)
                              (sessionId g) (reconnectAttempts g) (token g)).

Definition set_sessionId (v : jsval) : World -> World :=
  with_gw (fun g => mkGateway (ws g) (sequence g) (heartbeatInterval g)
                              v (reconnectAttempts g) (token g)).

Definition set_reconnectAttempts (n : Z) : World -> World :=
  with_gw (fun g => mkGateway (ws g) (sequence g) (heartbeatInterval g)
                              (sessionId g) n (token g)).

Definition with_sockets (f : gmap sock_id WebSocket -> gmap sock_id WebSocket)
    (w : World) : World :=
  mkWorld (gw w) (f (sockets w)) (next_socket w) (timers w) (next_timer w)
          (pending w) (sent w) (console w) (unhandled w) (platform w).

Definition with_timers (f : gmap timer_id jsval -> gmap timer_id jsval)
    (w : World) : World :=
  mkWorld (gw w) (sockets w) (next_socket w) (f (timers w)) (next_timer w)
          (pending w) (sent w) (console w) (unhandled w) (platform w).

Definition with_pending (f : list (Z * Cont) -> list (Z * Cont))
    (w : World) : World :=
  mkWorld (gw w) (sockets w) (next_socket w) (timers w) (next_timer w)
          (f (pending w)) (sent w) (console w) (unhandled w) (platform w).

(** *** Runtime calls *)

(** [console.log(..)] / [console.error(..)] *)
Definition log (e : LogEntry) (w : World) : World :=
  mkWorld (gw w) (sockets w) (next_socket w) (timers w) (next_timer w)
          (pending w) (sent w) (console w ++ [e]) (unhandled w) (platform w).

(** [new WebSocket(url)] when the constructor returns: a fresh socket,
    connecting, without handlers. *)
Definition new_WebSocket (w : World) : sock_id * World :=
  (next_socket w,
   mkWorld (gw w) (<[next_socket w := mkSocket CONNECTING false]> (sockets w))
           (S (next_socket w)) (timers w) (next_timer w)
           (pending w) (sent w) (console w) (unhandled w) (platform w)).

(** [ws.on('open', ..); ws.on('message', ..); ws.on('error', ..);
    ws.on('close', ..)] *)
Definition ws_on (s : sock_id) : World -> World :=
  with_sockets (alter (fun k => mkSocket (readyState k) true) s).

(** [ws.send(data)] on an open socket *)
Definition ws_send (s : sock_id) (data : jsval) (w : World) : World :=
  mkWorld (gw w) (sockets w) (next_socket w) (timers w) (next_timer w)
          (pending w) (sent w ++ [(s, data)]) (console w) (unhandled w)
          (platform w).

(** [ws.close()]: nothing on a closed socket, otherwise the socket starts
    closing (its [close] event comes later). *)
Definition ws_close (s : sock_id) : World -> World :=
  with_sockets (alter (fun k => match readyState k with
                                | CLOSED => k
                                | _ => mkSocket CLOSING (wired k)
                                end) s).

(** [setInterval(callback, interval)]; the callback of the class is always
    [() => this.sendHeartbeat()].  The timer is recorded with the period it
    was given.  Node converts that argument to a number when it builds the
    timer and runs a period outside 1 .. 2^31-1 at 1 ms; that conversion is
    not part of this function, which follows the code for every period Node
    can convert (every number is one).  The properties that speak of a
    rejected [handlePayload] assume a [convertible] period of a HELLO. *)
Definition setInterval (interval : jsval) (w : World) : timer_id * World :=
  (next_timer w,
   mkWorld (gw w) (sockets w) (next_socket w)
           (<[next_timer w := interval]> (timers w)) (S (next_timer w))
           (pending w) (sent w) (console w) (unhandled w) (platform w)).

(** [clearInterval(handle)] *)
Definition clearInterval (t : timer_id) : World -> World :=
  with_timers (delete t).

(** [await setTimeout(ms)] followed by [k] *)
Definition await_setTimeout (ms : Z) (k : Cont) : World -> World :=
  with_pending (fun p => p ++ [(ms, k)]).

(** [this.ws && this.ws.readyState === WebSocket.OPEN]: the socket frames
    can be written to, if any. *)
Definition open_ws (w : World) : option sock_id :=
  match ws (gw w) with
  | None => None
  | Some s =>
      match sockets w !! s with
      | Some (mkSocket OPEN _) => Some s
      | _ => None
      end
  end.

(** ** The methods

    An [async] method that throws rejects its promise; [Completion] keeps
    the world as it is at that point, since the writes made before the
    throw stay. *)

Inductive Completion : Type :=
| Normal (w : World)
| Throw (w : World).

Definition world_of (c : Completion) : World :=
  match c with
  | Normal w => w
  | Throw w => w
  end.

(** [handleReconnect]: give up at the ceiling, otherwise count the attempt,
    wait [min(1000 * 2^attempts, 30000)] ms and connect again. *)
Definition handleReconnect (w : World) : World :=
  if MAX_RECONNECT_ATTEMPTS <=? reconnectAttempts (gw w) then
    log LogMaxReconnect w
  else
    let w1 := set_reconnectAttempts (reconnectAttempts (gw w) + 1) w in
    let delay := Z.min (1000 * 2 ^ reconnectAttempts (gw w1)) 30000 in
    let w2 := log (LogReconnectIn delay) w1 in
    await_setTimeout delay KConnect w2.

(** [setupWebSocketHandlers] *)
Definition setupWebSocketHandlers (w : World) : World :=
  match ws (gw w) with
  | None => w
  | Some s => ws_on s w
  end.

(** [connect]; [ctor_throws] says whether [new WebSocket(..)] throws, in
    which case [this.ws] keeps its value and the [catch] block runs. *)
Definition connect (ctor_throws : bool) (w : World) : World :=
  if ctor_throws then
    handleReconnect (log LogConnectFailed w)
  else
    let '(s, w1) := new_WebSocket w in
    setupWebSocketHandlers (set_ws s w1).

(** The continuation of an elapsed delay. *)
Definition resume (k : Cont) (ctor_throws : bool) (w : World) : World :=
  match k with
  | KConnect => connect ctor_throws w
  end.

(** [startHeartbeat] *)
Definition startHeartbeat (interval : jsval) (w : World) : World :=
  let w1 := match heartbeatInterval (gw w) with
            | Some t => clearInterval t w
            | None => w
            end in
  let '(t, w2) := setInterval interval w1 in
  set_heartbeatInterval t w2.

(** [sendHeartbeat] *)
Definition sendHeartbeat (w : World) : World :=
  match open_ws w with
  | None => w
  | Some s =>
      let payload := VObj [("op", VNum (OpCode_value HEARTBEAT));
                           ("d", sequence (gw w))] in
      log LogHeartbeatSent (ws_send s (JSON_stringify payload) w)
  end.

(** The object literal built by [identify]. *)
Definition identify_payload (w : World) : jsval :=
  VObj [("op", VNum (OpCode_value IDENTIFY));
        ("d", VObj [("token", VStr (token (gw w)));
                    ("intents", VNum 513);
                    ("properties",
                     VObj [("os", VStr (platform w));
                           ("browser", VStr "discord_gateway");
                           ("device", VStr "discord_gateway")])])].

(** [identify] *)
Definition identify (w : World) : World :=
  match open_ws w with
  | None => w
  | Some s => ws_send s (JSON_stringify (identify_payload w)) w
  end.

(** [handleHello] *)
Definition handleHello (data : jsval) (w : World) : Completion :=
  match get_prop data "heartbeat_interval" with
  | None => Throw w
  | Some heartbeat_interval =>
      Normal (identify (startHeartbeat heartbeat_interval w))
  end.

(** [handleInvalidSession], up to its first [await]; the rest of the body is
    the continuation [KConnect]. *)
Definition handleInvalidSession (w : World) : World :=
  let w1 := match heartbeatInterval (gw w) with
            | Some t => clearInterval t w
            | None => w
            end in
  await_setTimeout 5000 KConnect w1.

(** [handleDispatch]; the line of the default branch is built with
    [`${event}`], which throws when [event] cannot be converted. *)
Definition handleDispatch (event data : jsval) (w : World) : Completion :=
  if is_str event "READY" then
    match get_prop data "session_id" with
    | None => Throw w
    | Some session_id => Normal (log LogBotReady (set_sessionId session_id w))
    end
  else if convertible event then
    Normal (log (LogDispatch event) w)
  else
    Throw w.

(** [handlePayload]; the line of the default branch is built with
    [`${op}`], which throws when [op] cannot be converted. *)
Definition handlePayload (payload : jsval) (w : World) : Completion :=
  match get_prop payload "op", get_prop payload "d",
        get_prop payload "s", get_prop payload "t" with
  | Some op, Some d, Some s, Some t =>
      let w1 := if not_null s then set_sequence s w else w in
      if is_num op (OpCode_value HELLO) then
        handleHello d w1
      else if is_num op (OpCode_value HEARTBEAT_ACK) then
        Normal (log LogHeartbeatAck w1)
      else if is_num op (OpCode_value INVALID_SESSION) then
        Normal (handleInvalidSession (log LogSessionInvalidated w1))
      else if is_num op (OpCode_value DISPATCH) then
        handleDispatch t d w1
      else if convertible op then
        Normal (log (LogUnhandledOp op) w1)
      else
        Throw w1
  | _, _, _, _ => Throw w
  end.

(** [disconnect] *)
Definition disconnect (w : World) : World :=
  let w1 := match heartbeatInterval (gw w) with
            | Some t => clearInterval t w
            | None => w
            end in
  match ws (gw w1) with
  | Some s => ws_close s w1
  | None => w1
  end.

(** ** The event handlers and the reactor *)

(** The outcome of [JSON.parse(data.toString())] on a received frame. *)
Inductive Parsed : Type :=
| ParseThrows
| ParseOk (payload : jsval).

(** [ws.on('open', ..)] *)
Definition on_open (w : World) : World := log LogConnected w.

(** [ws.on('message', ..)]: the promise of [handlePayload] is not awaited,
    so the [catch] block sees the exceptions of [JSON.parse] only; a
    rejection of [handlePayload] stays unhandled. *)
Definition on_message (data : Parsed) (w : World) : World :=
  match data with
  | ParseThrows => log LogParseFailed w
  | ParseOk payload =>
      match handlePayload payload w with
      | Normal w' => w'
      | Throw w' =>
          mkWorld (gw w') (sockets w') (next_socket w') (timers w')
                  (next_timer w') (pending w') (sent w') (console w')
                  (S (unhandled w')) (platform w')
      end
  end.

(** [ws.on('error', ..)] *)
Definition on_error (w : World) : World := log LogSocketError w.

(** [ws.on('close', ..)] *)
Definition on_close (code : Z) (reason : string) (w : World) : World :=
  handleReconnect (log (LogClosed code reason) w).

(** What the runtime can deliver.  [ctor_throws] is the outcome of the
    [new WebSocket(..)] evaluated by the [connect] that the event runs. *)
Inductive Event : Type :=
| CallConnect (ctor_throws : bool)
| CallDisconnect
| SockOpen (s : sock_id)
| SockMessage (s : sock_id) (data : Parsed)
| SockError (s : sock_id)
| SockClose (s : sock_id) (code : Z) (reason : string)
| TimerTick (t : timer_id)
| DelayElapsed (i : nat) (ctor_throws : bool).

Definition set_readyState (s : sock_id) (r : ReadyState) : World -> World :=
  with_sockets (alter (fun k => mkSocket r (wired k)) s).

(** A socket event runs its handler when the handlers are attached. *)
Definition emit (k : WebSocket) (handler : World -> World) (w : World) : World :=
  if wired k then handler w else w.

(** One turn of the event loop; [None] when the runtime cannot deliver the
    event in this world (no such socket, timer or delay, or a socket in a
    state that excludes the event). *)
Definition step (e : Event) (w : World) : option World :=
  match e with
  | CallConnect ctor_throws => Some (connect ctor_throws w)
  | CallDisconnect => Some (disconnect w)
  | SockOpen s =>
      match sockets w !! s with
      | Some k =>
          match readyState k with
          | CONNECTING => Some (emit k on_open (set_readyState s OPEN w))
          | _ => None
          end
      | None => None
      end
  | SockMessage s data =>
      match sockets w !! s with
      | Some k =>
          match readyState k with
          | OPEN | CLOSING => Some (emit k (on_message data) w)
          | _ => None
          end
      | None => None
      end
  | SockError s =>
      match sockets w !! s with
      | Some k =>
          match readyState k with
          | CLOSED => None
          | _ => Some (emit k on_error (set_readyState s CLOSING w))
          end
      | None => None
      end
  | SockClose s code reason =>
      match sockets w !! s with
      | Some k =>
          match readyState k with
          | CLOSED => None
          | _ => Some (emit k (on_close code reason) (set_readyState s CLOSED w))
          end
      | None => None
      end
  | TimerTick t =>
      match timers w !! t with
      | Some _ => Some (sendHeartbeat w)
      | None => None
      end
  | DelayElapsed i ctor_throws =>
      match pending w !! i with
      | Some (_, k) => Some (resume k ctor_throws (with_pending (delete i) w))
      | None => None
      end
  end.

Fixpoint run (trace : list Event) (w : World) : option World :=
  match trace with
  | [] => Some w
  | e :: rest =>
      match step e w with
      | Some w' => run rest w'
      | None => None
      end
  end.

(** The object after [new DiscordGateway(token)], in a fresh runtime. *)
Definition init (tok plat : string) : World :=
  mkWorld (mkGateway None VNull None VNull 0 tok) ∅ 0%nat ∅ 0%nat [] [] [] 0%nat plat.

Definition reachable (w : World) : Prop :=
  ∃ tok plat trace, run trace (init tok plat) = Some w.

(** What holds of every reachable world: an armed interval timer is the one
    [heartbeatInterval] holds, [ws] is a socket of the runtime, every socket
    has its handlers, and the attempts stay between 0 and the ceiling. *)
Record session_inv (w : World) : Prop := mkInv {
  inv_timers : ∀ t, is_Some (timers w !! t) → heartbeatInterval (gw w) = Some t;
  inv_ws : ∀ s, ws (gw w) = Some s → is_Some (sockets w !! s);
  inv_wired : ∀ s k, sockets w !! s = Some k → wired k = true;
  inv_attempts : 0 ≤ reconnectAttempts (gw w) ≤ MAX_RECONNECT_ATTEMPTS
}.

(** ** Sample frames and sessions *)

Definition frame_hello (interval : Z) : jsval :=
  VObj [("t", VNull); ("s", VNull); ("op", VNum 10);
        ("d", VObj [("heartbeat_interval", VNum interval)])].

Definition frame_hello_null : jsval :=
  VObj [("t", VNull); ("s", VNull); ("op", VNum 10); ("d", VNull)].

Definition frame_ready : jsval :=
  VObj [("t", VStr "READY"); ("s", VNum 3); ("op", VNum 0);
        ("d", VObj [("session_id", VStr "abc123")])].

Definition frame_invalid_session : jsval :=
  VObj [("t", VNull); ("s", VNull); ("op", VNum 9); ("d", VBool false)].

(** A heartbeat acknowledgement without the keys [s] and [t]. *)
Definition frame_ack_bare : jsval :=
  VObj [("op", VNum 11)].

Definition world0 : World := init "token" "linux".

(** The world a trace leads to from [world0]. *)
Definition after (trace : list Event) : World :=
  default world0 (run trace world0).

(** The socket is open, nothing received yet. *)
Definition trace_open : list Event :=
  [CallConnect false; SockOpen 0%nat].

(** The handshake has completed and sequence number 3 is stored. *)
Definition trace_ready : list Event :=
  trace_open ++ [SockMessage 0%nat (ParseOk (frame_hello 41250));
                 SockMessage 0%nat (ParseOk frame_ready)].

(** The first [new WebSocket] threw; the backoff delay elapsed and the
    second one returned. *)
Definition trace_failed_once : list Event :=
  [CallConnect true; DelayElapsed 0%nat false].

(** Five sockets in a row were closed abnormally, each reconnect after its
    backoff delay; the sixth socket is connecting. *)
Definition trace_exhausted : list Event :=
  [CallConnect false;
   SockClose 0%nat 1006 ""; DelayElapsed 0%nat false;
   SockClose 1%nat 1006 ""; DelayElapsed 0%nat false;
   SockClose 2%nat 1006 ""; DelayElapsed 0%nat false;
   SockClose 3%nat 1006 ""; DelayElapsed 0%nat false;
   SockClose 4%nat 1006 ""; DelayElapsed 0%nat false].

(** The session was invalidated and [connect] has made a second socket,
    which is still connecting; the first socket is still open. *)
Definition trace_reconnecting : list Event :=
  trace_open ++ [SockMessage 0%nat (ParseOk frame_invalid_session);
                 DelayElapsed 0%nat false].

(** ** The bootstrap

    index.ts reads the token from the environment, refuses to start without
    one ([!token] holds for a missing variable and for the empty string),
    builds the gateway and calls [connect]. *)
Definition main (DISCORD_TOKEN : option string) (plat : string)
    (ctor_throws : bool) : option World :=
  match DISCORD_TOKEN with
  | None => None
  | Some tok =>
      if String.eqb tok "" then None
      else Some (connect ctor_throws (init tok plat))
  end.

(** ** Vocabulary of the further properties *)

(** [null] and [undefined], the values whose properties cannot be read. *)
Definition nullish (v : jsval) : bool :=
  match v with
  | VUndef | VNull => true
  | _ => false
  end.

(** Whether the period a HELLO payload carries, if it is one and carries
    one, is a value Node can convert when it builds the interval timer. *)
Definition period_ok (payload : jsval) : bool :=
  match get_prop payload "op", get_prop payload "d" with
  | Some op, Some d =>
      if is_num op (OpCode_value HELLO) then
        match get_prop d "heartbeat_interval" with
        | Some interval => convertible interval
        | None => true
        end
      else true
  | _, _ => true
  end.

(** The console lines written by [handleReconnect] when it starts a backoff
    delay. *)
Definition is_backoff (e : LogEntry) : bool :=
  match e with
  | LogReconnectIn _ => true
  | _ => false
  end.

Definition backoffs (w : World) : nat :=
  length (List.filter is_backoff (console w)).

(** What holds of the runtime in every reachable world: socket handles are
    older than the next one, every frame written is a HEARTBEAT or an
    IDENTIFY on a socket of the runtime, every awaited delay lies between 2
    and 30 seconds, and the counter counts the backoff delays started. *)
Record runtime_inv (w : World) : Prop := mkRuntimeInv {
  rinv_fresh : ∀ s, is_Some (sockets w !! s) → (s < next_socket w)%nat;
  rinv_sent : ∀ s frame, (s, frame) ∈ sent w →
    (s < next_socket w)%nat ∧
    (get_prop frame "op" = Some (VNum (OpCode_value HEARTBEAT)) ∨
     get_prop frame "op" = Some (VNum (OpCode_value IDENTIFY)));
  rinv_pending : ∀ ms k, (ms, k) ∈ pending w → 2000 ≤ ms ≤ 30000;
  rinv_backoffs : Z.of_nat (backoffs w) = reconnectAttempts (gw w)
}.

(** * Properties *)

Ltac unfold_methods :=
  unfold handlePayload, handleHello, handleInvalidSession, handleDispatch,
    startHeartbeat, identify, sendHeartbeat, disconnect, connect,
    setupWebSocketHandlers, handleReconnect, on_message, on_open, on_error,
    on_close, emit, resume in *.

Ltac split_cases :=
  repeat (case_match; simpl in *; subst; try done).

(** A write that touches none of the fields the invariant reads. *)
Ltac inv_frame :=
  let H1 := fresh in let H2 := fresh in let H3 := fresh in let H4 := fresh in
  intros [H1 H2 H3 H4]; by split.

(** ** The invariant of reachable worlds *)

Lemma session_inv_init tok plat : session_inv (init tok plat).
Proof.
  split; simpl.
  - intros t [x Hx]. by rewrite lookup_empty in Hx.
  - intros s Hs. discriminate.
  - intros s k Hk. by rewrite lookup_empty in Hk.
  - unfold MAX_RECONNECT_ATTEMPTS. lia.
Qed.

Lemma session_inv_log e w : session_inv w → session_inv (log e w).
Proof. inv_frame. Qed.

Lemma session_inv_set_sequence v w :
  session_inv w → session_inv (set_sequence v w).
Proof. inv_frame. Qed.

Lemma session_inv_set_sessionId v w :
  session_inv w → session_inv (set_sessionId v w).
Proof. inv_frame. Qed.

Lemma session_inv_ws_send s data w :
  session_inv w → session_inv (ws_send s data w).
Proof. inv_frame. Qed.

Lemma session_inv_with_pending f w :
  session_inv w → session_inv (with_pending f w).
Proof. inv_frame. Qed.

Lemma session_inv_alter_socket f s w :
  (∀ k, wired k = true → wired (f k) = true) →
  session_inv w → session_inv (with_sockets (alter f s) w).
Proof.
  intros Hf [H1 H2 H3 H4]. split; simpl; try done.
  - intros s' Hs'. rewrite lookup_alter. case_decide; subst.
    + destruct (H2 _ Hs') as [k ->]. by eexists.
    + by apply H2.
  - intros s' k. rewrite lookup_alter. case_decide; subst.
    + destruct (sockets w !! s') as [k0|] eqn:E; simpl; [|done].
      intros [= <-]. eauto.
    + apply H3.
Qed.

Lemma session_inv_set_readyState s r w :
  session_inv w → session_inv (set_readyState s r w).
Proof. by apply session_inv_alter_socket. Qed.

Lemma session_inv_ws_close s w : session_inv w → session_inv (ws_close s w).
Proof.
  apply session_inv_alter_socket. intros k Hk. by destruct (readyState k).
Qed.

(** [if (this.heartbeatInterval) clearInterval(this.heartbeatInterval)]
    leaves no interval timer armed. *)
Lemma timers_clear_held w :
  session_inv w →
  timers (match heartbeatInterval (gw w) with
          | Some t => clearInterval t w
          | None => w
          end) = ∅.
Proof.
  intros [H1 _ _ _]. apply map_empty. intros t.
  destruct (heartbeatInterval (gw w)) as [h|] eqn:Hh; simpl.
  - destruct (decide (h = t)) as [->|Hne].
    + apply lookup_delete_eq.
    + rewrite lookup_delete_ne by done.
      destruct (timers w !! t) eqn:E; [|done].
      specialize (H1 t (ltac:(by eexists))). congruence.
  - destruct (timers w !! t) eqn:E; [|done].
    specialize (H1 t (ltac:(by eexists))). congruence.
Qed.

Lemma session_inv_clear_held w :
  session_inv w →
  session_inv (match heartbeatInterval (gw w) with
               | Some t => clearInterval t w
               | None => w
               end).
Proof.
  intros Hw. pose proof (timers_clear_held w Hw) as Ht.
  destruct (heartbeatInterval (gw w)) as [h|]; [|done].
  destruct Hw as [H1 H2 H3 H4].
  split; simpl in *; try done.
  intros t [x Hx]. by rewrite Ht, lookup_empty in Hx.
Qed.

Lemma timers_startHeartbeat interval w :
  session_inv w →
  timers (startHeartbeat interval w) = {[ next_timer w := interval ]}.
Proof.
  intros Hw. pose proof (timers_clear_held w Hw) as Ht.
  unfold startHeartbeat.
  destruct (heartbeatInterval (gw w)); simpl in *; by rewrite Ht.
Qed.

Lemma session_inv_startHeartbeat interval w :
  session_inv w → session_inv (startHeartbeat interval w).
Proof.
  intros Hw. pose proof (timers_startHeartbeat interval w Hw) as Ht.
  destruct Hw as [H1 H2 H3 H4]. split.
  - rewrite Ht. intros t [x Hx]. apply lookup_singleton_Some in Hx as [<- _].
    unfold startHeartbeat. by destruct (heartbeatInterval (gw w)).
  - unfold startHeartbeat. by destruct (heartbeatInterval (gw w)).
  - unfold startHeartbeat. by destruct (heartbeatInterval (gw w)).
  - unfold startHeartbeat. by destruct (heartbeatInterval (gw w)).
Qed.

Lemma session_inv_identify w : session_inv w → session_inv (identify w).
Proof.
  intros Hw. unfold identify. destruct (open_ws w); [|done].
  by apply session_inv_ws_send.
Qed.

Lemma session_inv_sendHeartbeat w :
  session_inv w → session_inv (sendHeartbeat w).
Proof.
  intros Hw. unfold sendHeartbeat. destruct (open_ws w); [|done].
  by apply session_inv_log, session_inv_ws_send.
Qed.

Lemma session_inv_handleReconnect w :
  session_inv w → session_inv (handleReconnect w).
Proof.
  intros Hw. unfold handleReconnect.
  destruct (Z.leb_spec MAX_RECONNECT_ATTEMPTS (reconnectAttempts (gw w)))
    as [Hge|Hlt].
  - by apply session_inv_log.
  - destruct Hw as [H1 H2 H3 H4]. split; simpl; try done. lia.
Qed.

Lemma session_inv_connect ctor_throws w :
  session_inv w → session_inv (connect ctor_throws w).
Proof.
  intros Hw. destruct ctor_throws; simpl.
  - by apply session_inv_handleReconnect, session_inv_log.
  - destruct Hw as [H1 H2 H3 H4].
    unfold connect, setupWebSocketHandlers; simpl. split; simpl; try done.
    + intros s [= <-]. rewrite lookup_alter, decide_True by done.
      rewrite lookup_insert_eq. by eexists.
    + intros s k. rewrite lookup_alter. case_decide; subst.
      * rewrite lookup_insert_eq. simpl. by intros [= <-].
      * rewrite lookup_insert_ne by done. apply H3.
Qed.

Lemma session_inv_handleInvalidSession w :
  session_inv w → session_inv (handleInvalidSession w).
Proof.
  intros Hw. by apply session_inv_with_pending, session_inv_clear_held.
Qed.

Lemma session_inv_handleHello data w :
  session_inv w → session_inv (world_of (handleHello data w)).
Proof.
  intros Hw. unfold handleHello.
  destruct (get_prop data "heartbeat_interval"); simpl; [|done].
  by apply session_inv_identify, session_inv_startHeartbeat.
Qed.

Lemma session_inv_handleDispatch event data w :
  session_inv w → session_inv (world_of (handleDispatch event data w)).
Proof.
  intros Hw. unfold handleDispatch. destruct (is_str event "READY").
  - destruct (get_prop data "session_id"); simpl; [|done].
    by apply session_inv_log, session_inv_set_sessionId.
  - destruct (convertible event); [|done]. by apply session_inv_log.
Qed.

Lemma session_inv_handlePayload payload w :
  session_inv w → session_inv (world_of (handlePayload payload w)).
Proof.
  intros Hw. unfold handlePayload.
  destruct (get_prop payload "op") as [op|]; [|done].
  destruct (get_prop payload "d") as [d|]; [|done].
  destruct (get_prop payload "s") as [s|]; [|done].
  destruct (get_prop payload "t") as [t|]; [|done].
  set (w1 := if not_null s then set_sequence s w else w).
  assert (Hw1 : session_inv w1).
  { subst w1. destruct (not_null s); [|done]. by apply session_inv_set_sequence. }
  destruct (is_num op _); [by apply session_inv_handleHello|].
  destruct (is_num op _); [by apply session_inv_log|].
  destruct (is_num op _);
    [by apply session_inv_handleInvalidSession, session_inv_log|].
  destruct (is_num op _); [by apply session_inv_handleDispatch|].
  destruct (convertible op); [|done]. by apply session_inv_log.
Qed.

Lemma session_inv_on_message data w :
  session_inv w → session_inv (on_message data w).
Proof.
  intros Hw. destruct data as [|payload]; simpl.
  - by apply session_inv_log.
  - pose proof (session_inv_handlePayload payload w Hw) as H.
    destruct (handlePayload payload w) as [w'|w']; simpl in H; [done|].
    destruct H as [H1 H2 H3 H4]. by split.
Qed.

Lemma session_inv_disconnect w : session_inv w → session_inv (disconnect w).
Proof.
  intros Hw. unfold disconnect.
  pose proof (session_inv_clear_held w Hw) as Hw1.
  destruct (ws (gw _)); [|done]. by apply session_inv_ws_close.
Qed.

Lemma session_inv_emit k handler w :
  (∀ w0, session_inv w0 → session_inv (handler w0)) →
  session_inv w → session_inv (emit k handler w).
Proof. intros Hh Hw. unfold emit. destruct (wired k); auto. Qed.

Lemma session_inv_step e w w' :
  step e w = Some w' → session_inv w → session_inv w'.
Proof.
  intros Hstep Hw. destruct e; simpl in Hstep.
  - injection Hstep as <-. by apply session_inv_connect.
  - injection Hstep as <-. by apply session_inv_disconnect.
  - destruct (sockets w !! s) as [k|]; [|done].
    destruct (readyState k); try done. injection Hstep as <-.
    apply session_inv_emit; [|by apply session_inv_set_readyState].
    intros w0. apply session_inv_log.
  - destruct (sockets w !! s) as [k|]; [|done].
    destruct (readyState k); try done; injection Hstep as <-;
      (apply session_inv_emit; [|done]);
      intros w0; apply session_inv_on_message.
  - destruct (sockets w !! s) as [k|]; [|done].
    destruct (readyState k); try done; injection Hstep as <-;
      (apply session_inv_emit; [|by apply session_inv_set_readyState]);
      intros w0; apply session_inv_log.
  - destruct (sockets w !! s) as [k|]; [|done].
    destruct (readyState k); try done; injection Hstep as <-;
      (apply session_inv_emit; [|by apply session_inv_set_readyState]);
      intros w0 Hw0; by apply session_inv_handleReconnect, session_inv_log.
  - destruct (timers w !! t); [|done]. injection Hstep as <-.
    by apply session_inv_sendHeartbeat.
  - destruct (pending w !! i) as [[ms []]|]; [|done]. injection Hstep as <-.
    by apply session_inv_connect, session_inv_with_pending.
Qed.

Lemma session_inv_run trace w w' :
  run trace w = Some w' → session_inv w → session_inv w'.
Proof.
  revert w. induction trace as [|e rest IH]; intros w Hrun Hw; simpl in Hrun.
  - by injection Hrun as <-.
  - destruct (step e w) as [w1|] eqn:Hstep; [|done].
    eapply IH; [done|]. by eapply session_inv_step.
Qed.

Lemma reachable_session_inv w : reachable w → session_inv w.
Proof.
  intros (tok & plat & trace & Hrun).
  eapply session_inv_run; [done|]. apply session_inv_init.
Qed.

(** ** The sequence number *)

Lemma sequence_handleHello data w :
  sequence (gw (world_of (handleHello data w))) = sequence (gw w).
Proof. unfold_methods. split_cases. Qed.

Lemma sequence_handleDispatch event data w :
  sequence (gw (world_of (handleDispatch event data w))) = sequence (gw w).
Proof. unfold_methods. split_cases. Qed.

Lemma sequence_handleInvalidSession w :
  sequence (gw (handleInvalidSession w)) = sequence (gw w).
Proof. unfold_methods. split_cases. Qed.

(** Whatever the opcode, and whether the handler returns or throws, the
    stored sequence is the [s] of the envelope unless [s] is [null]. *)
Lemma handlePayload_sequence payload op d s t w :
  get_prop payload "op" = Some op → get_prop payload "d" = Some d →
  get_prop payload "s" = Some s → get_prop payload "t" = Some t →
  sequence (gw (world_of (handlePayload payload w))) =
  if not_null s then s else sequence (gw w).
Proof.
  intros Hop Hd Hs Ht. unfold handlePayload. rewrite Hop, Hd, Hs, Ht.
  set (w1 := if not_null s then set_sequence s w else w).
  assert (Hw1 : sequence (gw w1) = if not_null s then s else sequence (gw w)).
  { subst w1. by destruct (not_null s). }
  rewrite <- Hw1.
  destruct (is_num op _); [by rewrite sequence_handleHello|].
  destruct (is_num op _); [done|].
  destruct (is_num op _);
    [cbn [world_of]; by rewrite sequence_handleInvalidSession|].
  destruct (is_num op _); [by rewrite sequence_handleDispatch|].
  by destruct (convertible op).
Qed.

(** An envelope whose [s] is a number stores that number. *)
Lemma handlePayload_stores_number payload n w :
  get_prop payload "s" = Some (VNum n) →
  sequence (gw (world_of (handlePayload payload w))) = VNum n.
Proof.
  intros Hs. destruct payload; simpl in Hs; try done.
  by rewrite (handlePayload_sequence _ (own_prop "op" fields)
                (own_prop "d" fields) (VNum n) (own_prop "t" fields)).
Qed.

(** An envelope whose [s] is [null] leaves the stored sequence alone. *)
Lemma handlePayload_null_keeps_sequence payload w :
  get_prop payload "s" = Some VNull →
  sequence (gw (world_of (handlePayload payload w))) = sequence (gw w).
Proof.
  intros Hs. destruct payload; simpl in Hs; try done.
  by rewrite (handlePayload_sequence _ (own_prop "op" fields)
                (own_prop "d" fields) VNull (own_prop "t" fields)).
Qed.

(** C1: the claim says that a stored sequence number is never reset to null
    or absent by frame handling.  On the reachable session [trace_ready],
    which stores 3, the acknowledgement [{"op": 11}] (no key [s]) passes the
    guard [s !== null] with [s] undefined, and [handlePayload] returns with
    the stored sequence undefined. *)
Theorem handlePayload_absent_s_erases_sequence :
  run trace_ready world0 = Some (after trace_ready) ∧
  sequence (gw (after trace_ready)) = VNum 3 ∧
  get_prop frame_ack_bare "s" = Some VUndef ∧
  ∃ w', handlePayload frame_ack_bare (after trace_ready) = Normal w' ∧
        step (SockMessage 0%nat (ParseOk frame_ack_bare)) (after trace_ready)
          = Some w' ∧
        sequence (gw w') = VUndef.
Proof.
  split; [by vm_compute|]. split; [by vm_compute|]. split; [done|].
  eexists. split; [by vm_compute|]. split; by vm_compute.
Qed.

(** ** The attempt counter *)

Lemma reconnectAttempts_handlePayload payload w :
  reconnectAttempts (gw (world_of (handlePayload payload w))) =
  reconnectAttempts (gw w).
Proof. unfold_methods. split_cases. Qed.

Lemma reconnectAttempts_on_message data w :
  reconnectAttempts (gw (on_message data w)) = reconnectAttempts (gw w).
Proof.
  destruct data as [|payload]; simpl; [done|].
  rewrite <- (reconnectAttempts_handlePayload payload w).
  by destruct (handlePayload payload w).
Qed.

Lemma reconnectAttempts_sendHeartbeat w :
  reconnectAttempts (gw (sendHeartbeat w)) = reconnectAttempts (gw w).
Proof. unfold_methods. split_cases. Qed.

Lemma reconnectAttempts_disconnect w :
  reconnectAttempts (gw (disconnect w)) = reconnectAttempts (gw w).
Proof. unfold_methods. split_cases. Qed.

Lemma reconnectAttempts_handleReconnect w :
  reconnectAttempts (gw (handleReconnect w)) =
  if MAX_RECONNECT_ATTEMPTS <=? reconnectAttempts (gw w)
  then reconnectAttempts (gw w) else reconnectAttempts (gw w) + 1.
Proof. unfold handleReconnect. by case_match. Qed.

Lemma reconnectAttempts_handleReconnect_le w :
  reconnectAttempts (gw w) ≤ reconnectAttempts (gw (handleReconnect w)).
Proof. rewrite reconnectAttempts_handleReconnect. case_match; lia. Qed.

Lemma reconnectAttempts_connect_ok w :
  reconnectAttempts (gw (connect false w)) = reconnectAttempts (gw w).
Proof. done. Qed.

Lemma reconnectAttempts_connect_le ctor_throws w :
  reconnectAttempts (gw w) ≤ reconnectAttempts (gw (connect ctor_throws w)).
Proof.
  destruct ctor_throws; [|by rewrite reconnectAttempts_connect_ok].
  apply (reconnectAttempts_handleReconnect_le (log LogConnectFailed w)).
Qed.

Lemma reconnectAttempts_step_le e w w' :
  step e w = Some w' →
  reconnectAttempts (gw w) ≤ reconnectAttempts (gw w').
Proof.
  intros Hstep. destruct e; simpl in Hstep.
  - injection Hstep as <-. apply reconnectAttempts_connect_le.
  - injection Hstep as <-. by rewrite reconnectAttempts_disconnect.
  - destruct (sockets w !! s) as [k|]; [|done].
    destruct (readyState k); try done. injection Hstep as <-.
    unfold emit. by destruct (wired k).
  - destruct (sockets w !! s) as [k|]; [|done].
    destruct (readyState k); try done; injection Hstep as <-;
      unfold emit; destruct (wired k);
      by rewrite ?reconnectAttempts_on_message.
  - destruct (sockets w !! s) as [k|]; [|done].
    destruct (readyState k); try done; injection Hstep as <-;
      unfold emit; by destruct (wired k).
  - destruct (sockets w !! s) as [k|]; [|done].
    destruct (readyState k); try done; injection Hstep as <-;
      unfold emit; destruct (wired k); try done;
      apply (reconnectAttempts_handleReconnect_le
               (log (LogClosed code reason) (set_readyState s CLOSED w))).
  - destruct (timers w !! t); [|done]. injection Hstep as <-.
    by rewrite reconnectAttempts_sendHeartbeat.
  - destruct (pending w !! i) as [[ms []]|]; [|done]. injection Hstep as <-.
    apply (reconnectAttempts_connect_le ctor_throws (with_pending (delete i) w)).
Qed.

Lemma reconnectAttempts_run_le trace w w' :
  run trace w = Some w' →
  reconnectAttempts (gw w) ≤ reconnectAttempts (gw w').
Proof.
  revert w. induction trace as [|e rest IH]; intros w Hrun; simpl in Hrun.
  - by injection Hrun as <-.
  - destruct (step e w) as [w1|] eqn:Hstep; [|done].
    etrans; [by eapply reconnectAttempts_step_le|by apply IH].
Qed.

(** C2, as the claim states it: [connect] would bring the counter back to 0.
    After one failed construction the counter is 1; a fresh [connect] whose
    socket is constructed leaves it at 1, and one whose construction throws
    takes it to 2, not to 1. *)
Lemma connect_leaves_reconnectAttempts_nonzero :
  run trace_failed_once world0 = Some (after trace_failed_once) ∧
  reconnectAttempts (gw (after trace_failed_once)) = 1 ∧
  reconnectAttempts (gw (connect false (after trace_failed_once))) ≠ 0 ∧
  reconnectAttempts (gw (connect true (after trace_failed_once))) = 2.
Proof. repeat split; by vm_compute. Qed.

(** C2, amended: no invocation of [connect] resets the counter.  [connect]
    leaves it as it is when the socket is constructed and hands over to
    [handleReconnect] when the construction throws; along every run of the
    session the counter never decreases. *)
Theorem reconnectAttempts_never_reset trace w w' ctor_throws :
  run trace w = Some w' →
  reconnectAttempts (gw w) ≤ reconnectAttempts (gw w') ∧
  reconnectAttempts (gw w') ≤ reconnectAttempts (gw (connect ctor_throws w')) ∧
  reconnectAttempts (gw (connect false w')) = reconnectAttempts (gw w') ∧
  connect true w' = handleReconnect (log LogConnectFailed w').
Proof.
  intros Hrun. split; [by eapply reconnectAttempts_run_le|].
  split; [apply reconnectAttempts_connect_le|]. by split.
Qed.

Lemma reconnectAttempts_never_reset_witness :
  reconnectAttempts (gw world0) ≤ reconnectAttempts (gw (after trace_failed_once)) ∧
  reconnectAttempts (gw (after trace_failed_once))
    ≤ reconnectAttempts (gw (connect false (after trace_failed_once))) ∧
  reconnectAttempts (gw (connect false (after trace_failed_once)))
    = reconnectAttempts (gw (after trace_failed_once)) ∧
  connect true (after trace_failed_once)
    = handleReconnect (log LogConnectFailed (after trace_failed_once)).
Proof.
  apply (reconnectAttempts_never_reset trace_failed_once world0
           (after trace_failed_once) false).
  vm_compute. reflexivity.
Defined.

(** ** The reconnect policy *)

Lemma pending_delete_last (p : list (Z * Cont)) (x : Z * Cont) :
  delete (length p) (p ++ [x]) = p.
Proof. rewrite delete_middle. apply app_nil_r. Qed.

Lemma pending_lookup_last (p : list (Z * Cont)) (x : Z * Cont) :
  (p ++ [x]) !! length p = Some x.
Proof. apply list_lookup_middle. done. Qed.

(** Firing the delay that was queued last runs its continuation on the
    world without that delay. *)
Lemma step_last_delay w p ms k ctor_throws :
  pending w = p ++ [(ms, k)] →
  step (DelayElapsed (length p) ctor_throws) w =
  Some (resume k ctor_throws (with_pending (λ _, p) w)).
Proof.
  intros Hp. simpl. rewrite Hp, pending_lookup_last.
  unfold with_pending. by rewrite Hp, pending_delete_last.
Qed.

(** C3: below the ceiling, [handleReconnect] takes the counter from [k] to
    [k + 1], starts exactly one delay of [min(1000 * 2^(k+1), 30000)] ms
    without opening any socket yet, and when that delay elapses the
    continuation is [connect]. *)
Theorem handleReconnect_below_ceiling w k :
  reconnectAttempts (gw w) = k → 0 ≤ k < 5 →
  let delay := Z.min (1000 * 2 ^ (k + 1)) 30000 in
  let w' := handleReconnect w in
  reconnectAttempts (gw w') = k + 1 ∧
  pending w' = pending w ++ [(delay, KConnect)] ∧
  console w' = console w ++ [LogReconnectIn delay] ∧
  sockets w' = sockets w ∧ ws (gw w') = ws (gw w) ∧
  ∀ ctor_throws,
    step (DelayElapsed (length (pending w)) ctor_throws) w' =
    Some (connect ctor_throws (with_pending (λ _, pending w) w')).
Proof.
  intros Hk Hrange delay w'.
  assert (Hw' : w' = await_setTimeout delay KConnect
                       (log (LogReconnectIn delay)
                          (set_reconnectAttempts (k + 1) w))).
  { subst w' delay. unfold handleReconnect. rewrite Hk.
    destruct (Z.leb_spec MAX_RECONNECT_ATTEMPTS k) as [Hge|Hlt]; [|done].
    unfold MAX_RECONNECT_ATTEMPTS in Hge. lia. }
  rewrite Hw'. repeat split.
  intros ctor_throws. by apply (step_last_delay _ (pending w) delay KConnect).
Qed.

Lemma handleReconnect_below_ceiling_witness :
  reconnectAttempts (gw (handleReconnect (after trace_failed_once))) = 1 + 1 ∧
  pending (handleReconnect (after trace_failed_once)) = [(4000, KConnect)].
Proof.
  destruct (handleReconnect_below_ceiling (after trace_failed_once) 1)
    as (Hk & Hp & _).
  - vm_compute. reflexivity.
  - lia.
  - split; [exact Hk|]. rewrite Hp. vm_compute. reflexivity.
Defined.

(** The delays of the five attempts a session can make. *)
Lemma backoff_delays :
  map (λ k, Z.min (1000 * 2 ^ (k + 1)) 30000) [0; 1; 2; 3; 4] =
  [2000; 4000; 8000; 16000; 30000].
Proof. reflexivity. Qed.

(** C4: at the ceiling [handleReconnect] only reports; no delay is started,
    no socket is made and the counter keeps its value. *)
Theorem handleReconnect_at_ceiling w :
  MAX_RECONNECT_ATTEMPTS ≤ reconnectAttempts (gw w) →
  handleReconnect w = log LogMaxReconnect w ∧
  pending (handleReconnect w) = pending w ∧
  sockets (handleReconnect w) = sockets w ∧
  next_socket (handleReconnect w) = next_socket w ∧
  ws (gw (handleReconnect w)) = ws (gw w) ∧
  reconnectAttempts (gw (handleReconnect w)) = reconnectAttempts (gw w).
Proof.
  intros Hge.
  assert (H : handleReconnect w = log LogMaxReconnect w).
  { unfold handleReconnect.
    destruct (Z.leb_spec MAX_RECONNECT_ATTEMPTS (reconnectAttempts (gw w)));
      [done|lia]. }
  by rewrite H.
Qed.

Lemma handleReconnect_at_ceiling_witness :
  run trace_exhausted world0 = Some (after trace_exhausted) ∧
  reconnectAttempts (gw (after trace_exhausted)) = 5 ∧
  pending (handleReconnect (after trace_exhausted)) = [] ∧
  reconnectAttempts (gw (handleReconnect (after trace_exhausted))) = 5.
Proof.
  assert (Hk : reconnectAttempts (gw (after trace_exhausted)) = 5)
    by (vm_compute; reflexivity).
  destruct (handleReconnect_at_ceiling (after trace_exhausted))
    as (_ & Hp & _ & _ & _ & Hn).
  - rewrite Hk. unfold MAX_RECONNECT_ATTEMPTS. lia.
  - split; [vm_compute; reflexivity|]. split; [exact Hk|].
    split; [rewrite Hp; vm_compute; reflexivity|]. by rewrite Hn.
Defined.

(** ** HELLO *)

Lemma JSON_stringify_identify_payload w :
  JSON_stringify (identify_payload w) = identify_payload w.
Proof. reflexivity. Qed.

Lemma identify_effect w :
  timers (identify w) = timers w ∧
  next_timer (identify w) = next_timer w ∧
  heartbeatInterval (gw (identify w)) = heartbeatInterval (gw w) ∧
  sent (identify w) =
    sent w ++ match open_ws w with
              | Some s => [(s, identify_payload w)]
              | None => []
              end.
Proof.
  unfold identify. destruct (open_ws w); simpl; [done|].
  by rewrite app_nil_r.
Qed.

Lemma startHeartbeat_frame interval w :
  open_ws (startHeartbeat interval w) = open_ws w ∧
  identify_payload (startHeartbeat interval w) = identify_payload w ∧
  sent (startHeartbeat interval w) = sent w ∧
  heartbeatInterval (gw (startHeartbeat interval w)) = Some (next_timer w) ∧
  next_timer (startHeartbeat interval w) = S (next_timer w).
Proof. unfold startHeartbeat. by destruct (heartbeatInterval (gw w)). Qed.

(** The effect of one HELLO on a world that satisfies the invariant. *)
Lemma handlePayload_hello_effect payload d interval w :
  session_inv w →
  get_prop payload "op" = Some (VNum (OpCode_value HELLO)) →
  get_prop payload "d" = Some d →
  get_prop d "heartbeat_interval" = Some interval →
  ∃ w', handlePayload payload w = Normal w' ∧
        session_inv w' ∧
        timers w' = {[ next_timer w := interval ]} ∧
        heartbeatInterval (gw w') = Some (next_timer w) ∧
        next_timer w' = S (next_timer w) ∧
        sent w' = sent w ++ match open_ws w with
                            | Some s => [(s, identify_payload w)]
                            | None => []
                            end.
Proof.
  intros Hw Hop Hd Hi.
  pose proof (session_inv_handlePayload payload w Hw) as Hinv.
  unfold handlePayload in *. rewrite Hop, Hd in *.
  destruct payload; try done. simpl.
  set (w1 := if not_null _ then _ else w) in *.
  assert (Hw1 : session_inv w1 ∧ next_timer w1 = next_timer w ∧
                sent w1 = sent w ∧ open_ws w1 = open_ws w ∧
                identify_payload w1 = identify_payload w).
  { subst w1. destruct (not_null _); [|done].
    split; [by apply session_inv_set_sequence|done]. }
  destruct Hw1 as (Hinv1 & Hn & Hs & Ho & Hp).
  simpl in Hinv. unfold handleHello in *. rewrite Hi in *. simpl in Hinv.
  eexists. split; [done|]. split; [done|].
  destruct (identify_effect (startHeartbeat interval w1)) as (Ht & Hnt & Hh & Hsent).
  destruct (startHeartbeat_frame interval w1) as (Ho' & Hp' & Hs' & Hh' & Hn').
  rewrite Ht, Hnt, Hh, Hsent, Ho', Hp', Hs', Hh', Hn'.
  rewrite (timers_startHeartbeat interval w1 Hinv1).
  by rewrite Hn, Hs, Ho, Hp.
Qed.

(** C5, as the claim states it: one IDENTIFY frame for every HELLO.  On the
    reachable session [trace_reconnecting] the object holds a socket that is
    still connecting while the socket it replaced is open; a HELLO received
    there arms the timer, and [identify] returns at its guard without
    sending. *)
Lemma hello_without_open_socket_sends_no_identify :
  run trace_reconnecting world0 = Some (after trace_reconnecting) ∧
  open_ws (after trace_reconnecting) = None ∧
  ∃ w', step (SockMessage 0%nat (ParseOk (frame_hello 41250)))
          (after trace_reconnecting) = Some w' ∧
        timers w' = {[ 0%nat := VNum 41250 ]} ∧
        sent w' = sent (after trace_reconnecting) ∧
        sent w' = [].
Proof.
  split; [by vm_compute|]. split; [by vm_compute|].
  eexists. split; [by vm_compute|]. repeat split; by vm_compute.
Qed.

(** C5, amended: a HELLO with [heartbeat_interval = N] leaves exactly one
    interval timer armed, with period [N], and sends exactly one IDENTIFY
    frame when the socket the object holds is open, none otherwise.  A second
    HELLO, handled while that timer is armed, again leaves exactly one timer,
    the new one. *)
Theorem handlePayload_hello payload d interval payload2 d2 interval2 w :
  session_inv w →
  get_prop payload "op" = Some (VNum (OpCode_value HELLO)) →
  get_prop payload "d" = Some d →
  get_prop d "heartbeat_interval" = Some interval →
  get_prop payload2 "op" = Some (VNum (OpCode_value HELLO)) →
  get_prop payload2 "d" = Some d2 →
  get_prop d2 "heartbeat_interval" = Some interval2 →
  ∃ w' w'',
    handlePayload payload w = Normal w' ∧
    timers w' = {[ next_timer w := interval ]} ∧
    heartbeatInterval (gw w') = Some (next_timer w) ∧
    sent w' = sent w ++ match open_ws w with
                        | Some s => [(s, JSON_stringify (identify_payload w))]
                        | None => []
                        end ∧
    handlePayload payload2 w' = Normal w'' ∧
    timers w'' = {[ next_timer w' := interval2 ]} ∧
    next_timer w' ≠ next_timer w.
Proof.
  intros Hw Hop Hd Hi Hop2 Hd2 Hi2.
  destruct (handlePayload_hello_effect payload d interval w Hw Hop Hd Hi)
    as (w' & Hrun & Hw' & Ht & Hh & Hn & Hs).
  destruct (handlePayload_hello_effect payload2 d2 interval2 w' Hw' Hop2 Hd2 Hi2)
    as (w'' & Hrun2 & _ & Ht2 & _).
  exists w', w''. rewrite Hn in Ht2 |- *. by repeat split.
Qed.

Lemma handlePayload_hello_witness :
  ∃ w' w'',
    handlePayload (frame_hello 41250) (after trace_open) = Normal w' ∧
    timers w' = {[ 0%nat := VNum 41250 ]} ∧
    sent w' = [(0%nat, identify_payload world0)] ∧
    handlePayload (frame_hello 45000) w' = Normal w'' ∧
    timers w'' = {[ 1%nat := VNum 45000 ]}.
Proof.
  destruct (handlePayload_hello (frame_hello 41250)
              (VObj [("heartbeat_interval", VNum 41250)]) (VNum 41250)
              (frame_hello 45000)
              (VObj [("heartbeat_interval", VNum 45000)]) (VNum 45000)
              (after trace_open))
    as (w' & w'' & H1 & H2 & H3 & H4 & H5 & H6 & H7).
  - apply reachable_session_inv. exists "token", "linux", trace_open.
    vm_compute. reflexivity.
  - reflexivity.
  - reflexivity.
  - reflexivity.
  - reflexivity.
  - reflexivity.
  - reflexivity.
  - exists w', w''. split; [exact H1|]. split; [exact H2|].
    split; [rewrite H4; vm_compute; reflexivity|]. split; [exact H5|].
    rewrite H6. injection H1 as <-. vm_compute. reflexivity.
Defined.

(** ** INVALID_SESSION *)

(** C6: an INVALID_SESSION envelope stops the heartbeat timer and starts one
    delay of 5000 ms whose continuation is [connect], the procedure itself
    and not [handleReconnect]; neither the handling nor the [connect] that
    follows it (taken up to its own failure handling) writes the attempt
    counter, whatever its value. *)
Theorem handlePayload_invalid_session payload w :
  session_inv w →
  get_prop payload "op" = Some (VNum (OpCode_value INVALID_SESSION)) →
  ∃ w', handlePayload payload w = Normal w' ∧
        timers w' = ∅ ∧
        pending w' = pending w ++ [(5000, KConnect)] ∧
        reconnectAttempts (gw w') = reconnectAttempts (gw w) ∧
        sockets w' = sockets w ∧ ws (gw w') = ws (gw w) ∧
        sent w' = sent w ∧
        (∀ ctor_throws,
           step (DelayElapsed (length (pending w)) ctor_throws) w' =
           Some (connect ctor_throws (with_pending (λ _, pending w) w'))) ∧
        reconnectAttempts (gw (connect false (with_pending (λ _, pending w) w')))
          = reconnectAttempts (gw w).
Proof.
  intros Hw Hop. unfold handlePayload. rewrite Hop.
  destruct payload; try done. simpl.
  set (w1 := if not_null _ then _ else w).
  assert (Hw1 : session_inv w1 ∧ pending w1 = pending w ∧
                reconnectAttempts (gw w1) = reconnectAttempts (gw w) ∧
                sockets w1 = sockets w ∧ ws (gw w1) = ws (gw w) ∧
                sent w1 = sent w).
  { subst w1. destruct (not_null _); [|done].
    split; [by apply session_inv_set_sequence|done]. }
  destruct Hw1 as (Hinv1 & Hp & Hk & Hsock & Hws & Hsent).
  set (w2 := log LogSessionInvalidated w1).
  assert (Hinv2 : session_inv w2) by by apply session_inv_log.
  pose proof (timers_clear_held w2 Hinv2) as Ht.
  eexists. split; [done|]. unfold handleInvalidSession.
  set (w3 := match heartbeatInterval (gw w2) with
             | Some t => clearInterval t w2
             | None => w2
             end) in *.
  assert (Hw3 : pending w3 = pending w ∧
                reconnectAttempts (gw w3) = reconnectAttempts (gw w) ∧
                sockets w3 = sockets w ∧ ws (gw w3) = ws (gw w) ∧
                sent w3 = sent w).
  { subst w3 w2. by destruct (heartbeatInterval _). }
  destruct Hw3 as (Hp3 & Hk3 & Hsock3 & Hws3 & Hsent3).
  split; [done|]. split; [by simpl; rewrite Hp3|]. repeat split; try done.
  intros ctor_throws.
  apply (step_last_delay _ (pending w) 5000 KConnect). simpl. by rewrite Hp3.
Qed.

Lemma handlePayload_invalid_session_witness :
  ∃ w', handlePayload frame_invalid_session (after trace_exhausted) = Normal w' ∧
        timers w' = ∅ ∧
        pending w' = [(5000, KConnect)] ∧
        reconnectAttempts (gw w') = 5.
Proof.
  destruct (handlePayload_invalid_session frame_invalid_session
              (after trace_exhausted))
    as (w' & H1 & H2 & H3 & H4 & _).
  - apply reachable_session_inv. exists "token", "linux", trace_exhausted.
    vm_compute. reflexivity.
  - reflexivity.
  - exists w'. split; [exact H1|]. split; [exact H2|].
    split; [rewrite H3; vm_compute; reflexivity|].
    rewrite H4. vm_compute. reflexivity.
Defined.

(** ** disconnect *)

(** C7: after [disconnect] no interval timer is armed and the socket the
    object holds, if any, has been closed (it is closing or closed); the
    attempt counter and the sequence number are as before. *)
Theorem disconnect_effect w :
  session_inv w →
  timers (disconnect w) = ∅ ∧
  (∀ s, ws (gw w) = Some s →
        ∃ k, sockets (disconnect w) !! s = Some k ∧
             (readyState k = CLOSING ∨ readyState k = CLOSED)) ∧
  open_ws (disconnect w) = None ∧
  reconnectAttempts (gw (disconnect w)) = reconnectAttempts (gw w) ∧
  sequence (gw (disconnect w)) = sequence (gw w).
Proof.
  intros Hw. pose proof (timers_clear_held w Hw) as Ht.
  pose proof (inv_ws w Hw) as Hs.
  unfold disconnect.
  set (w1 := match heartbeatInterval (gw w) with
             | Some t => clearInterval t w
             | None => w
             end) in *.
  assert (Hw1 : gw w1 = gw w ∧ sockets w1 = sockets w).
  { subst w1. by destruct (heartbeatInterval _). }
  destruct Hw1 as (Hg & Hsock). rewrite Hg.
  assert (Hclosed : ∀ s, ws (gw w) = Some s →
            ∃ k, sockets (ws_close s w1) !! s = Some k ∧
                 (readyState k = CLOSING ∨ readyState k = CLOSED)).
  { intros s Hws. destruct (Hs s Hws) as [k0 Hk0].
    simpl. rewrite Hsock, lookup_alter, decide_True, Hk0 by done. simpl.
    eexists. split; [done|]. destruct (readyState k0) eqn:Hr; simpl; auto. }
  destruct (ws (gw w)) as [s|] eqn:Hws.
  - split; [done|]. split; [by intros s' [= <-]; apply Hclosed|].
    split; [|simpl; by rewrite Hg].
    destruct (Hclosed s eq_refl) as (k & Hk & Hr).
    unfold open_ws. simpl in *. rewrite Hg, Hws, Hk.
    destruct k as [r wd]. simpl in Hr. by destruct Hr as [-> | ->].
  - split; [done|]. split; [done|]. split; [|by rewrite Hg].
    unfold open_ws. by rewrite Hg, Hws.
Qed.

Lemma disconnect_effect_witness :
  timers (after trace_ready) = {[ 0%nat := VNum 41250 ]} ∧
  timers (disconnect (after trace_ready)) = ∅ ∧
  sockets (disconnect (after trace_ready)) !! 0%nat = Some (mkSocket CLOSING true) ∧
  sequence (gw (disconnect (after trace_ready))) = VNum 3.
Proof.
  destruct (disconnect_effect (after trace_ready)) as (H1 & _ & _ & _ & H2).
  - apply reachable_session_inv. exists "token", "linux", trace_ready.
    vm_compute. reflexivity.
  - split; [vm_compute; reflexivity|]. split; [exact H1|].
    split; [vm_compute; reflexivity|]. rewrite H2. vm_compute. reflexivity.
Defined.

(** ** The heartbeat tick *)

(** The heartbeat frame for a stored [null] and for a stored number. *)
Lemma heartbeat_frame_null :
  JSON_stringify (VObj [("op", VNum (OpCode_value HEARTBEAT)); ("d", VNull)]) =
  VObj [("op", VNum 1); ("d", VNull)].
Proof. reflexivity. Qed.

Lemma heartbeat_frame_number n :
  JSON_stringify (VObj [("op", VNum (OpCode_value HEARTBEAT)); ("d", VNum n)]) =
  VObj [("op", VNum 1); ("d", VNum n)].
Proof. reflexivity. Qed.

(** C8: the tick of an armed timer runs [sendHeartbeat].  With the held
    socket open exactly one frame is written, the serialisation of
    [{op: 1, d: this.sequence}]; otherwise nothing at all changes.  In both
    cases the timers stay as they are. *)
Theorem sendHeartbeat_tick t w :
  is_Some (timers w !! t) →
  step (TimerTick t) w = Some (sendHeartbeat w) ∧
  timers (sendHeartbeat w) = timers w ∧
  gw (sendHeartbeat w) = gw w ∧
  match open_ws w with
  | Some s =>
      sent (sendHeartbeat w) =
      sent w ++ [(s, JSON_stringify
                       (VObj [("op", VNum 1); ("d", sequence (gw w))]))] ∧
      (sequence (gw w) = VNull →
       sent (sendHeartbeat w) =
       sent w ++ [(s, VObj [("op", VNum 1); ("d", VNull)])]) ∧
      (∀ n, sequence (gw w) = VNum n →
            sent (sendHeartbeat w) =
            sent w ++ [(s, VObj [("op", VNum 1); ("d", VNum n)])])
  | None => sendHeartbeat w = w
  end.
Proof.
  intros [interval Ht]. simpl. rewrite Ht. split; [done|].
  unfold sendHeartbeat. destruct (open_ws w) as [s|]; [|done].
  split; [done|]. split; [done|]. split; [done|]. cbn [sent log ws_send].
  split.
  - intros ->. by rewrite heartbeat_frame_null.
  - intros n ->. by rewrite heartbeat_frame_number.
Qed.

Lemma sendHeartbeat_tick_witness :
  step (TimerTick 0%nat) (after trace_ready)
    = Some (sendHeartbeat (after trace_ready)) ∧
  timers (sendHeartbeat (after trace_ready)) = {[ 0%nat := VNum 41250 ]} ∧
  sent (sendHeartbeat (after trace_ready)) =
    sent (after trace_ready) ++ [(0%nat, VObj [("op", VNum 1); ("d", VNum 3)])].
Proof.
  destruct (sendHeartbeat_tick 0%nat (after trace_ready)) as (H1 & H2 & _ & H3).
  - vm_compute. eexists. reflexivity.
  - split; [exact H1|]. split; [rewrite H2; vm_compute; reflexivity|].
    vm_compute. reflexivity.
Defined.

(** ** Transport errors *)

Lemma handleReconnect_counts w :
  reconnectAttempts (gw w) < MAX_RECONNECT_ATTEMPTS →
  reconnectAttempts (gw (handleReconnect w)) = reconnectAttempts (gw w) + 1 ∧
  pending (handleReconnect w) =
    pending w ++
    [(Z.min (1000 * 2 ^ (reconnectAttempts (gw w) + 1)) 30000, KConnect)].
Proof.
  intros Hlt. unfold handleReconnect.
  destruct (Z.leb_spec MAX_RECONNECT_ATTEMPTS (reconnectAttempts (gw w)));
    [lia|done].
Qed.



(** ** HELLO without data *)

(** C10: a HELLO envelope whose [d] is [null] or missing makes the
    destructuring in [handleHello] throw, so [handlePayload] is rejected
    before any timer is armed or frame sent.  The [message] handler does not
    await that promise: its [catch] block does not run (nothing is logged,
    unlike a frame that fails to parse) and the rejection stays unhandled. *)
Theorem handleHello_without_data_throws payload d w :
  get_prop payload "op" = Some (VNum (OpCode_value HELLO)) →
  get_prop payload "d" = Some d →
  d = VNull ∨ d = VUndef →
  ∃ w1, handlePayload payload w = Throw w1 ∧
        handleHello d w1 = Throw w1 ∧
        timers w1 = timers w ∧ sent w1 = sent w ∧ console w1 = console w ∧
        console (on_message (ParseOk payload) w) = console w ∧
        unhandled (on_message (ParseOk payload) w) = S (unhandled w) ∧
        on_message ParseThrows w = log LogParseFailed w.
Proof.
  intros Hop Hd Hnull. unfold on_message, handlePayload. rewrite Hop, Hd.
  destruct payload; try done. simpl.
  set (w1 := if not_null _ then _ else w).
  assert (Hw1 : timers w1 = timers w ∧ sent w1 = sent w ∧
                console w1 = console w ∧ unhandled w1 = unhandled w).
  { subst w1. by destruct (not_null _). }
  destruct Hw1 as (Ht & Hs & Hc & Hu).
  assert (Hthrow : handleHello d w1 = Throw w1).
  { unfold handleHello. by destruct Hnull as [-> | ->]. }
  rewrite Hthrow. exists w1. simpl. by rewrite Hu.
Qed.

Lemma handleHello_without_data_throws_witness :
  ∃ w1, handlePayload frame_hello_null (after trace_open) = Throw w1 ∧
        timers w1 = ∅ ∧ sent w1 = [] ∧
        unhandled (on_message (ParseOk frame_hello_null) (after trace_open)) = 1%nat.
Proof.
  destruct (handleHello_without_data_throws frame_hello_null VNull
              (after trace_open))
    as (w1 & H1 & _ & H2 & H3 & _ & _ & H4 & _).
  - reflexivity.
  - reflexivity.
  - left. reflexivity.
  - exists w1. split; [exact H1|].
    split; [rewrite H2; vm_compute; reflexivity|].
    split; [rewrite H3; vm_compute; reflexivity|].
    rewrite H4. vm_compute. reflexivity.
Defined.

(** ** The invariant of the runtime *)

Lemma runtime_inv_init tok plat : runtime_inv (init tok plat).
Proof.
  split; simpl.
  - intros s [k Hk]. by rewrite lookup_empty in Hk.
  - intros s frame H. by apply elem_of_nil in H.
  - intros ms k H. by apply elem_of_nil in H.
  - done.
Qed.

(** Worlds that agree on what the invariant reads. *)
Lemma runtime_inv_agree w w' :
  sockets w' = sockets w → next_socket w' = next_socket w →
  sent w' = sent w → pending w' = pending w → console w' = console w →
  reconnectAttempts (gw w') = reconnectAttempts (gw w) →
  runtime_inv w → runtime_inv w'.
Proof.
  intros Hs Hn Hf Hp Hc Hk [H1 H2 H3 H4].
  split; unfold backoffs; rewrite ?Hs, ?Hn, ?Hf, ?Hp, ?Hc, ?Hk; done.
Qed.

Lemma backoffs_log e w :
  backoffs (log e w) = (backoffs w + if is_backoff e then 1 else 0)%nat.
Proof.
  unfold backoffs. simpl. rewrite List.filter_app, length_app. simpl.
  destruct (is_backoff e); simpl; lia.
Qed.

Lemma runtime_inv_log e w :
  is_backoff e = false → runtime_inv w → runtime_inv (log e w).
Proof.
  intros He [H1 H2 H3 H4]. split; try done.
  rewrite backoffs_log, He. simpl in *. lia.
Qed.

Lemma runtime_inv_alter_socket f s w :
  runtime_inv w → runtime_inv (with_sockets (alter f s) w).
Proof.
  intros [H1 H2 H3 H4]. split; try done.
  intros s'. simpl. rewrite lookup_alter_is_Some. apply H1.
Qed.

Lemma runtime_inv_delete_pending i w :
  runtime_inv w → runtime_inv (with_pending (delete i) w).
Proof.
  intros [H1 H2 H3 H4]. split; try done.
  intros ms k H. simpl in H. apply list_elem_of_delete_inv in H. by eapply H3.
Qed.

Lemma open_ws_Some w s :
  open_ws w = Some s →
  ws (gw w) = Some s ∧ ∃ k, sockets w !! s = Some k ∧ readyState k = OPEN.
Proof.
  unfold open_ws. destruct (ws (gw w)) as [s'|]; [|done].
  destruct (sockets w !! s') as [[[] wd]|] eqn:Hk; try done.
  intros [= <-]. split; [done|]. by eexists.
Qed.

Lemma runtime_inv_ws_send s frame w :
  open_ws w = Some s →
  get_prop frame "op" = Some (VNum (OpCode_value HEARTBEAT)) ∨
  get_prop frame "op" = Some (VNum (OpCode_value IDENTIFY)) →
  runtime_inv w → runtime_inv (ws_send s frame w).
Proof.
  intros Ho Hop [H1 H2 H3 H4]. split; try done.
  intros s' frame'. simpl. rewrite elem_of_app, list_elem_of_singleton.
  intros [Hin | [= -> ->]]; [by apply H2|]. split; [|done].
  apply H1. apply open_ws_Some in Ho as (_ & k & Hk & _). by eexists.
Qed.

Lemma runtime_inv_identify w : runtime_inv w → runtime_inv (identify w).
Proof.
  intros Hw. unfold identify. destruct (open_ws w) as [s|] eqn:Ho; [|done].
  apply runtime_inv_ws_send; [done| |done]. by right.
Qed.

Lemma runtime_inv_sendHeartbeat w :
  runtime_inv w → runtime_inv (sendHeartbeat w).
Proof.
  intros Hw. unfold sendHeartbeat.
  destruct (open_ws w) as [s|] eqn:Ho; [|done].
  apply runtime_inv_log; [done|].
  apply runtime_inv_ws_send; [done| |done]. by left.
Qed.

Lemma backoff_delay_bounds k :
  0 ≤ k → 2000 ≤ Z.min (1000 * 2 ^ (k + 1)) 30000 ≤ 30000.
Proof.
  intros Hk. rewrite Z.pow_add_r by lia. change (2 ^ 1) with 2.
  pose proof (Z.pow_pos_nonneg 2 k ltac:(lia) Hk). lia.
Qed.

Lemma runtime_inv_handleReconnect w :
  session_inv w → runtime_inv w → runtime_inv (handleReconnect w).
Proof.
  intros Hs Hw. unfold handleReconnect.
  destruct (Z.leb_spec MAX_RECONNECT_ATTEMPTS (reconnectAttempts (gw w)))
    as [Hge|Hlt].
  - by apply runtime_inv_log.
  - pose proof (inv_attempts w Hs) as Hk.
    destruct Hw as [H1 H2 H3 H4]. split; try done.
    + intros ms k. simpl. rewrite elem_of_app, list_elem_of_singleton.
      intros [Hin | [= -> ->]]; [by eapply H3|].
      apply backoff_delay_bounds. lia.
    + unfold await_setTimeout, with_pending, backoffs in *. simpl in *.
      rewrite List.filter_app, length_app. simpl. lia.
Qed.

Lemma runtime_inv_connect ctor_throws w :
  session_inv w → runtime_inv w → runtime_inv (connect ctor_throws w).
Proof.
  intros Hs Hw. destruct ctor_throws; simpl.
  - apply runtime_inv_handleReconnect; [by apply session_inv_log|].
    by apply runtime_inv_log.
  - destruct Hw as [H1 H2 H3 H4].
    unfold connect, setupWebSocketHandlers; simpl. split; simpl; try done.
    + intros s. rewrite lookup_alter_is_Some.
      destruct (decide (s = next_socket w)) as [->|Hne]; [lia|].
      rewrite lookup_insert_ne by done. intros H. apply H1 in H. lia.
    + intros s frame H. destruct (H2 s frame H) as [Hlt Hop].
      split; [lia|done].
Qed.

Lemma runtime_inv_clear_held w :
  runtime_inv w →
  runtime_inv (match heartbeatInterval (gw w) with
               | Some t => clearInterval t w
               | None => w
               end).
Proof.
  intros Hw. destruct (heartbeatInterval (gw w)); [|done].
  by apply (runtime_inv_agree w).
Qed.

Lemma runtime_inv_startHeartbeat interval w :
  runtime_inv w → runtime_inv (startHeartbeat interval w).
Proof.
  apply runtime_inv_agree; unfold startHeartbeat;
    by destruct (heartbeatInterval (gw w)).
Qed.

Lemma runtime_inv_handleInvalidSession w :
  runtime_inv w → runtime_inv (handleInvalidSession w).
Proof.
  intros Hw. apply runtime_inv_clear_held in Hw.
  unfold handleInvalidSession. destruct Hw as [H1 H2 H3 H4].
  split; try done.
  intros ms k. simpl. rewrite elem_of_app, list_elem_of_singleton.
  intros [Hin | [= -> ->]]; [by eapply H3|lia].
Qed.

Lemma runtime_inv_handlePayload payload w :
  runtime_inv w → runtime_inv (world_of (handlePayload payload w)).
Proof.
  intros Hw. unfold handlePayload.
  destruct (get_prop payload "op") as [op|]; [|done].
  destruct (get_prop payload "d") as [d|]; [|done].
  destruct (get_prop payload "s") as [s|]; [|done].
  destruct (get_prop payload "t") as [t|]; [|done].
  set (w1 := if not_null s then set_sequence s w else w).
  assert (Hw1 : runtime_inv w1).
  { subst w1. destruct (not_null s); [|done].
    by apply (runtime_inv_agree w). }
  destruct (is_num op _).
  { unfold handleHello. destruct (get_prop d _); simpl; [|done].
    by apply runtime_inv_identify, runtime_inv_startHeartbeat. }
  destruct (is_num op _); [by apply runtime_inv_log|].
  destruct (is_num op _);
    [by apply runtime_inv_handleInvalidSession, runtime_inv_log|].
  destruct (is_num op _);
    [|destruct (convertible op); [|done]; by apply runtime_inv_log].
  unfold handleDispatch. destruct (is_str t "READY").
  - destruct (get_prop d "session_id"); simpl; [|done].
    apply runtime_inv_log; [done|]. by apply (runtime_inv_agree w1).
  - destruct (convertible t); [|done]. by apply runtime_inv_log.
Qed.

Lemma runtime_inv_on_message data w :
  runtime_inv w → runtime_inv (on_message data w).
Proof.
  intros Hw. destruct data as [|payload]; simpl.
  - by apply runtime_inv_log.
  - pose proof (runtime_inv_handlePayload payload w Hw) as H.
    destruct (handlePayload payload w) as [w'|w']; simpl in H; [done|].
    by apply (runtime_inv_agree w').
Qed.

Lemma runtime_inv_disconnect w : runtime_inv w → runtime_inv (disconnect w).
Proof.
  intros Hw. unfold disconnect. apply runtime_inv_clear_held in Hw.
  destruct (ws (gw _)); [|done]. by apply runtime_inv_alter_socket.
Qed.

Lemma runtime_inv_step e w w' :
  step e w = Some w' → session_inv w → runtime_inv w → runtime_inv w'.
Proof.
  intros Hstep Hs Hw. destruct e; simpl in Hstep.
  - injection Hstep as <-. by apply runtime_inv_connect.
  - injection Hstep as <-. by apply runtime_inv_disconnect.
  - destruct (sockets w !! s) as [k|]; [|done].
    destruct (readyState k); try done. injection Hstep as <-.
    unfold emit. destruct (wired k);
      [apply runtime_inv_log; [done|]|]; by apply runtime_inv_alter_socket.
  - destruct (sockets w !! s) as [k|]; [|done].
    destruct (readyState k); try done; injection Hstep as <-;
      unfold emit; destruct (wired k); try done;
      by apply runtime_inv_on_message.
  - destruct (sockets w !! s) as [k|]; [|done].
    destruct (readyState k); try done; injection Hstep as <-;
      unfold emit; destruct (wired k);
      try (apply runtime_inv_log; [done|]); by apply runtime_inv_alter_socket.
  - destruct (sockets w !! s) as [k|]; [|done].
    destruct (readyState k); try done; injection Hstep as <-;
      unfold emit; destruct (wired k);
      try (apply runtime_inv_handleReconnect;
           [by apply session_inv_log, session_inv_set_readyState|];
           apply runtime_inv_log; [done|]);
      by apply runtime_inv_alter_socket.
  - destruct (timers w !! t); [|done]. injection Hstep as <-.
    by apply runtime_inv_sendHeartbeat.
  - destruct (pending w !! i) as [[ms []]|]; [|done]. injection Hstep as <-.
    apply runtime_inv_connect; [by apply session_inv_with_pending|].
    by apply runtime_inv_delete_pending.
Qed.

Lemma reachable_runtime_inv w : reachable w → runtime_inv w.
Proof.
  intros (tok & plat & trace & Hrun).
  assert (H : ∀ tr w0 w1, run tr w0 = Some w1 →
              session_inv w0 → runtime_inv w0 → runtime_inv w1).
  { induction tr as [|e rest IH]; intros w0 w1 Hr Hs Hw; simpl in Hr.
    - by injection Hr as <-.
    - destruct (step e w0) as [w2|] eqn:Hstep; [|done].
      eapply IH; [done|by eapply session_inv_step|by eapply runtime_inv_step]. }
  eapply H; [done|apply session_inv_init|apply runtime_inv_init].
Qed.

(** ** Further properties of the session *)

(** X1: in every reachable world at most one interval timer is armed, and it
    is the one [heartbeatInterval] holds. *)
Theorem reachable_at_most_one_timer w :
  reachable w →
  (size (timers w) ≤ 1)%nat ∧
  (timers w = ∅ ∨
   ∃ t interval, heartbeatInterval (gw w) = Some t ∧
                 timers w = {[ t := interval ]}).
Proof.
  intros Hr. pose proof (inv_timers w (reachable_session_inv w Hr)) as Ht.
  assert (H : timers w = ∅ ∨
              ∃ t interval, heartbeatInterval (gw w) = Some t ∧
                            timers w = {[ t := interval ]}).
  { destruct (heartbeatInterval (gw w)) as [h|] eqn:Hh.
    - destruct (timers w !! h) as [v|] eqn:Hv.
      + right. exists h, v. split; [done|]. apply map_eq. intros t.
        destruct (decide (h = t)) as [<-|Hne].
        * by rewrite lookup_singleton_eq.
        * rewrite lookup_singleton_ne by done.
          destruct (timers w !! t) eqn:E; [|done].
          specialize (Ht t ltac:(by eexists)). congruence.
      + left. apply map_empty. intros t.
        destruct (timers w !! t) eqn:E; [|done].
        specialize (Ht t ltac:(by eexists)). congruence.
    - left. apply map_empty. intros t.
      destruct (timers w !! t) eqn:E; [|done].
      specialize (Ht t ltac:(by eexists)). congruence. }
  split; [|done].
  destruct H as [-> | (t & v & _ & ->)].
  - rewrite map_size_empty. lia.
  - by rewrite map_size_singleton.
Qed.

Lemma reachable_at_most_one_timer_witness :
  (size (timers (after trace_ready)) ≤ 1)%nat.
Proof.
  apply (reachable_at_most_one_timer (after trace_ready)).
  exists "token", "linux", trace_ready. vm_compute. reflexivity.
Defined.

(** X2: the attempt counter is the number of backoff delays the session has
    started since it was built, and that number never exceeds five. *)
Theorem reachable_backoffs_bounded w :
  reachable w →
  Z.of_nat (backoffs w) = reconnectAttempts (gw w) ∧
  (backoffs w ≤ 5)%nat.
Proof.
  intros Hr. pose proof (inv_attempts w (reachable_session_inv w Hr)) as Hk.
  pose proof (rinv_backoffs w (reachable_runtime_inv w Hr)) as Hb.
  unfold MAX_RECONNECT_ATTEMPTS in Hk. split; [done|lia].
Qed.

Lemma reachable_backoffs_bounded_witness :
  Z.of_nat (backoffs (after trace_exhausted))
    = reconnectAttempts (gw (after trace_exhausted)) ∧
  (backoffs (after trace_exhausted) ≤ 5)%nat.
Proof.
  apply (reachable_backoffs_bounded (after trace_exhausted)).
  exists "token", "linux", trace_exhausted. vm_compute. reflexivity.
Defined.

(** X3: every delay a reachable session is waiting for lies between 2000
    and 30000 ms. *)
Theorem reachable_delays_bounded w i ms k :
  reachable w → pending w !! i = Some (ms, k) → 2000 ≤ ms ≤ 30000.
Proof.
  intros Hr Hi. eapply (rinv_pending w (reachable_runtime_inv w Hr)).
  by eapply list_elem_of_lookup_2.
Qed.

Lemma reachable_delays_bounded_witness : 2000 ≤ 5000 ≤ 30000.
Proof.
  apply (reachable_delays_bounded
           (after (trace_open ++ [SockMessage 0%nat (ParseOk frame_invalid_session)]))
           0%nat 5000 KConnect).
  - exists "token", "linux",
      (trace_open ++ [SockMessage 0%nat (ParseOk frame_invalid_session)]).
    vm_compute. reflexivity.
  - vm_compute. reflexivity.
Defined.

(** X4: the only frames a session ever writes are HEARTBEAT and IDENTIFY
    frames. *)
Theorem reachable_sent_frames w s frame :
  reachable w → (s, frame) ∈ sent w →
  get_prop frame "op" = Some (VNum 1) ∨ get_prop frame "op" = Some (VNum 2).
Proof.
  intros Hr Hin.
  by destruct (rinv_sent w (reachable_runtime_inv w Hr) s frame Hin).
Qed.

Lemma reachable_sent_frames_witness :
  get_prop (identify_payload world0) "op" = Some (VNum 1) ∨
  get_prop (identify_payload world0) "op" = Some (VNum 2).
Proof.
  apply (reachable_sent_frames (after trace_ready) 0%nat).
  - exists "token", "linux", trace_ready. vm_compute. reflexivity.
  - vm_compute. apply list_elem_of_here.
Defined.

(** X5: a READY dispatch stores [d.session_id] ([undefined] when [d] has no
    such key) as the session identifier and writes one console line; timers,
    sockets, delays and frames are as before. *)
Theorem handlePayload_ready payload d session_id w :
  get_prop payload "op" = Some (VNum (OpCode_value DISPATCH)) →
  get_prop payload "t" = Some (VStr "READY") →
  get_prop payload "d" = Some d →
  get_prop d "session_id" = Some session_id →
  ∃ w', handlePayload payload w = Normal w' ∧
        sessionId (gw w') = session_id ∧
        console w' = console w ++ [LogBotReady] ∧
        timers w' = timers w ∧ sockets w' = sockets w ∧
        pending w' = pending w ∧ sent w' = sent w.
Proof.
  intros Hop Ht Hd Hsid. unfold handlePayload. rewrite Hop, Ht, Hd.
  destruct payload; try done. simpl.
  set (w1 := if not_null _ then _ else w).
  assert (Hw1 : console w1 = console w ∧ timers w1 = timers w ∧
                sockets w1 = sockets w ∧ pending w1 = pending w ∧
                sent w1 = sent w).
  { subst w1. by destruct (not_null _). }
  destruct Hw1 as (Hc & Htm & Hs & Hp & Hf).
  unfold handleDispatch. simpl. rewrite Hsid.
  eexists. split; [done|]. simpl. by rewrite Hc.
Qed.

Lemma handlePayload_ready_witness :
  ∃ w', handlePayload frame_ready (after trace_open) = Normal w' ∧
        sessionId (gw w') = VStr "abc123".
Proof.
  destruct (handlePayload_ready frame_ready
              (VObj [("session_id", VStr "abc123")]) (VStr "abc123")
              (after trace_open))
    as (w' & H1 & H2 & _); try reflexivity.
  exists w'. split; [exact H1|exact H2].
Defined.

Lemma is_num_inj v a b : is_num v a = true → is_num v b = true → a = b.
Proof.
  destruct v; try done. simpl. intros Ha Hb.
  apply Z.eqb_eq in Ha, Hb. congruence.
Qed.

(** A value one property of which can be read lets every property be
    read. *)
Lemma get_prop_readable v k k' :
  is_Some (get_prop v k) → is_Some (get_prop v k').
Proof. destruct v; simpl; intros [x Hx]; try done; by eexists. Qed.

(** The world in which the opcode is looked at differs from the one the
    frame arrived in by the stored sequence only. *)
Lemma sequence_update_frame (s : jsval) w :
  let w1 := if not_null s then set_sequence s w else w in
  timers w1 = timers w ∧ next_timer w1 = next_timer w ∧
  heartbeatInterval (gw w1) = heartbeatInterval (gw w) ∧
  sockets w1 = sockets w ∧ next_socket w1 = next_socket w ∧
  ws (gw w1) = ws (gw w) ∧ pending w1 = pending w ∧ sent w1 = sent w ∧
  console w1 = console w ∧ unhandled w1 = unhandled w ∧
  sessionId (gw w1) = sessionId (gw w) ∧
  reconnectAttempts (gw w1) = reconnectAttempts (gw w).
Proof. simpl. by destruct (not_null s). Qed.

(** X6: for a payload that [period_ok] admits (any payload but a HELLO whose
    [heartbeat_interval] Node cannot convert), [handlePayload] is rejected
    exactly when the payload itself is [null] or [undefined], or [d] is
    [null] or [undefined] in a HELLO or in a READY dispatch, or the event
    name of another dispatch cannot be converted to a string, or the opcode
    is none of the four handled ones and cannot be converted to a string. *)
Theorem handlePayload_throws_iff payload w :
  period_ok payload = true →
  ((∃ w', handlePayload payload w = Throw w') ↔
   nullish payload = true ∨
   ∃ op d t,
     get_prop payload "op" = Some op ∧ get_prop payload "d" = Some d ∧
     get_prop payload "t" = Some t ∧
     ((is_num op (OpCode_value HELLO) = true ∧ nullish d = true) ∨
      (is_num op (OpCode_value DISPATCH) = true ∧
       is_str t "READY" = true ∧ nullish d = true) ∨
      (is_num op (OpCode_value DISPATCH) = true ∧
       is_str t "READY" = false ∧ convertible t = false) ∨
      (is_num op (OpCode_value HELLO) = false ∧
       is_num op (OpCode_value HEARTBEAT_ACK) = false ∧
       is_num op (OpCode_value INVALID_SESSION) = false ∧
       is_num op (OpCode_value DISPATCH) = false ∧
       convertible op = false))).
Proof.
  intros _.
  assert (Hhello : ∀ d w0,
            (∃ w', handleHello d w0 = Throw w') ↔ nullish d = true).
  { intros d w0. unfold handleHello.
    destruct d; simpl; (split; [intros [w' Hw']|intros Hn]);
      try done; by eexists. }
  assert (Hdisp : ∀ t d w0,
            (∃ w', handleDispatch t d w0 = Throw w') ↔
            (is_str t "READY" = true ∧ nullish d = true) ∨
            (is_str t "READY" = false ∧ convertible t = false)).
  { intros t d w0. unfold handleDispatch. destruct (is_str t "READY").
    - destruct d; simpl;
        (split; [intros [w' Hw']|intros [[_ Hn]|[Hr _]]]);
        try done; try (by left); by eexists.
    - destruct (convertible t);
        (split; [intros [w' Hw']|intros [[Hr _]|[_ Hc]]]);
        try done; try (by right); by eexists. }
  unfold handlePayload.
  destruct (get_prop payload "op") as [op|] eqn:Hop; cycle 1.
  { split; [intros _; left; by destruct payload|intros _; by eexists]. }
  destruct (get_prop payload "d") as [d|] eqn:Hd; [|by destruct payload].
  destruct (get_prop payload "s") as [s|] eqn:Hs; [|by destruct payload].
  destruct (get_prop payload "t") as [t|] eqn:Ht; [|by destruct payload].
  set (w1 := if not_null s then set_sequence s w else w).
  assert (Hpay : nullish payload = false) by by destruct payload.
  set (cases := λ op d t,
         (is_num op (OpCode_value HELLO) = true ∧ nullish d = true) ∨
         (is_num op (OpCode_value DISPATCH) = true ∧
          is_str t "READY" = true ∧ nullish d = true) ∨
         (is_num op (OpCode_value DISPATCH) = true ∧
          is_str t "READY" = false ∧ convertible t = false) ∨
         (is_num op (OpCode_value HELLO) = false ∧
          is_num op (OpCode_value HEARTBEAT_ACK) = false ∧
          is_num op (OpCode_value INVALID_SESSION) = false ∧
          is_num op (OpCode_value DISPATCH) = false ∧
          convertible op = false)).
  assert (Hrhs : (nullish payload = true ∨
                  ∃ op' d' t', Some op = Some op' ∧ Some d = Some d' ∧
                    Some t = Some t' ∧ cases op' d' t') ↔ cases op d t).
  { split.
    - intros [Hn | (op' & d' & t' & [= <-] & [= <-] & [= <-] & Hc)];
        [congruence|done].
    - intros Hc. right. by exists op, d, t. }
  change ((∃ w', (if is_num op (OpCode_value HELLO) then handleHello d w1
                  else if is_num op (OpCode_value HEARTBEAT_ACK)
                       then Normal (log LogHeartbeatAck w1)
                  else if is_num op (OpCode_value INVALID_SESSION)
                       then Normal (handleInvalidSession
                                      (log LogSessionInvalidated w1))
                  else if is_num op (OpCode_value DISPATCH)
                       then handleDispatch t d w1
                  else if convertible op
                       then Normal (log (LogUnhandledOp op) w1)
                  else Throw w1) = Throw w') ↔
          (nullish payload = true ∨
           ∃ op' d' t', Some op = Some op' ∧ Some d = Some d' ∧
             Some t = Some t' ∧ cases op' d' t')).
  rewrite Hrhs. clear Hrhs. subst cases. cbv beta.
  destruct (is_num op (OpCode_value HELLO)) eqn:E10.
  { rewrite Hhello. split; [intros Hn; by left|].
    intros [[_ Hn]|[(H & _)|[(H & _)|(H & _)]]]; try done;
      by pose proof (is_num_inj _ _ _ E10 H). }
  destruct (is_num op (OpCode_value HEARTBEAT_ACK)) eqn:E11.
  { split; [intros [w' Hw']; done|].
    intros [[H _]|[(H & _)|[(H & _)|(_ & H & _)]]]; try done;
      by pose proof (is_num_inj _ _ _ E11 H). }
  destruct (is_num op (OpCode_value INVALID_SESSION)) eqn:E9.
  { split; [intros [w' Hw']; done|].
    intros [[H _]|[(H & _)|[(H & _)|(_ & _ & H & _)]]]; try done;
      by pose proof (is_num_inj _ _ _ E9 H). }
  destruct (is_num op (OpCode_value DISPATCH)) eqn:E0.
  { rewrite Hdisp. split.
    - intros [[Hr Hn]|[Hr Hc]]; [right; by left|right; right; by left].
    - intros [[H _]|[(_ & Hr & Hn)|[(_ & Hr & Hc)|(_ & _ & _ & H & _)]]];
        try done; [by left|by right]. }
  destruct (convertible op) eqn:Ec.
  - split; [intros [w' Hw']; done|].
    intros [[H _]|[(H & _)|[(H & _)|(_ & _ & _ & _ & H)]]]; done.
  - split; [intros _; by do 3 right|intros _; by eexists].
Qed.

Lemma handlePayload_throws_iff_witness :
  (∃ w', handlePayload frame_hello_null world0 = Throw w') ∧
  (∃ w', handlePayload (VObj [("op", VObj [("toString", VNull)])]) world0
         = Throw w').
Proof.
  split.
  - apply (handlePayload_throws_iff frame_hello_null world0); [reflexivity|].
    right. exists (VNum 10), VNull, VNull. repeat split; try reflexivity.
    left. split; reflexivity.
  - apply (handlePayload_throws_iff
             (VObj [("op", VObj [("toString", VNull)])]) world0);
      [reflexivity|].
    right. exists (VObj [("toString", VNull)]), VUndef, VUndef.
    repeat split; try reflexivity. do 3 right. repeat split; reflexivity.
Defined.

(** X7: for a payload that [period_ok] admits, a rejected [handlePayload]
    has done nothing but the update of the stored sequence: no timer, socket,
    delay, frame, console line or session identifier has changed. *)
Theorem handlePayload_throw_frame payload w w' :
  period_ok payload = true →
  handlePayload payload w = Throw w' →
  timers w' = timers w ∧ heartbeatInterval (gw w') = heartbeatInterval (gw w) ∧
  sockets w' = sockets w ∧ pending w' = pending w ∧ sent w' = sent w ∧
  console w' = console w ∧ sessionId (gw w') = sessionId (gw w) ∧
  reconnectAttempts (gw w') = reconnectAttempts (gw w).
Proof.
  intros _. unfold handlePayload.
  destruct (get_prop payload "op") as [op|]; [|by intros [= <-]].
  destruct (get_prop payload "d") as [d|]; [|by intros [= <-]].
  destruct (get_prop payload "s") as [s|]; [|by intros [= <-]].
  destruct (get_prop payload "t") as [t|]; [|by intros [= <-]].
  pose proof (sequence_update_frame s w) as Hw1. simpl in Hw1.
  set (w1 := if not_null s then set_sequence s w else w) in *.
  destruct Hw1 as (H1 & _ & H2 & H3 & _ & _ & H4 & H5 & H6 & _ & H7 & H8).
  clearbody w1.
  destruct (is_num op _).
  { unfold handleHello. destruct (get_prop d _); [done|]. by intros [= <-]. }
  destruct (is_num op _); [done|].
  destruct (is_num op _); [done|].
  destruct (is_num op _).
  - unfold handleDispatch. destruct (is_str t "READY").
    + destruct (get_prop d _); [done|]. by intros [= <-].
    + destruct (convertible t); [done|]. by intros [= <-].
  - destruct (convertible op); [done|]. by intros [= <-].
Qed.

Lemma handlePayload_throw_frame_witness :
  timers (world_of (handlePayload frame_hello_null (after trace_ready)))
    = timers (after trace_ready).
Proof.
  destruct (handlePayload_throw_frame frame_hello_null (after trace_ready)
              (world_of (handlePayload frame_hello_null (after trace_ready))))
    as (H & _).
  - reflexivity.
  - vm_compute. reflexivity.
  - exact H.
Defined.

(** X8: within the turn in which a frame is received no socket is made,
    closed or replaced, whatever the frame.  For every frame but an
    INVALID_SESSION that turn is the whole handling: no delay is started, so
    nothing of it runs later.  An INVALID_SESSION leaves the sockets alone
    until its delay elapses; the socket the session holds is not closed. *)
Theorem handlePayload_keeps_sockets payload w :
  sockets (world_of (handlePayload payload w)) = sockets w ∧
  next_socket (world_of (handlePayload payload w)) = next_socket w ∧
  ws (gw (world_of (handlePayload payload w))) = ws (gw w) ∧
  (get_prop payload "op" ≠ Some (VNum (OpCode_value INVALID_SESSION)) →
   pending (world_of (handlePayload payload w)) = pending w) ∧
  (get_prop payload "op" = Some (VNum (OpCode_value INVALID_SESSION)) →
   pending (world_of (handlePayload payload w)) =
     pending w ++ [(5000, KConnect)] ∧
   ∀ ctor_throws,
     step (DelayElapsed (length (pending w)) ctor_throws)
          (world_of (handlePayload payload w)) =
     Some (connect ctor_throws
             (with_pending (λ _, pending w)
                (world_of (handlePayload payload w))))).
Proof.
  split; [unfold_methods; split_cases|].
  split; [unfold_methods; split_cases|].
  split; [unfold_methods; split_cases|].
  unfold handlePayload.
  destruct (get_prop payload "op") as [op|] eqn:Hop; [|done].
  destruct (get_prop_readable payload "op" "d" (mk_is_Some _ _ Hop)) as [d ->].
  destruct (get_prop_readable payload "op" "s" (mk_is_Some _ _ Hop)) as [s ->].
  destruct (get_prop_readable payload "op" "t" (mk_is_Some _ _ Hop)) as [t ->].
  pose proof (sequence_update_frame s w) as Hw1. simpl in Hw1.
  set (w1 := if not_null s then set_sequence s w else w) in *.
  destruct Hw1 as (_ & _ & _ & _ & _ & _ & Hp & _). clearbody w1.
  assert (Hinv : pending (handleInvalidSession (log LogSessionInvalidated w1))
                 = pending w ++ [(5000, KConnect)]).
  { unfold handleInvalidSession. simpl.
    destruct (heartbeatInterval (gw w1)); simpl; by rewrite Hp. }
  split.
  - intros Hne.
    destruct (is_num op (OpCode_value HELLO)).
    { unfold handleHello. destruct (get_prop d _); simpl; [|done].
      unfold identify, startHeartbeat.
      destruct (heartbeatInterval (gw w1)); simpl;
        by destruct (open_ws _). }
    destruct (is_num op (OpCode_value HEARTBEAT_ACK)); [done|].
    destruct (is_num op (OpCode_value INVALID_SESSION)) eqn:E9.
    { destruct op; try done. simpl in E9. apply Z.eqb_eq in E9. by subst. }
    destruct (is_num op (OpCode_value DISPATCH)).
    + unfold handleDispatch. destruct (is_str t "READY").
      * by destruct (get_prop d _).
      * by destruct (convertible t).
    + by destruct (convertible op).
  - intros [= ->]. cbn [is_num OpCode_value Z.eqb Pos.eqb world_of].
    split; [done|]. intros ctor_throws.
    by apply (step_last_delay _ (pending w) 5000 KConnect).
Qed.

Lemma handlePayload_keeps_sockets_witness :
  pending (world_of (handlePayload frame_ready (after trace_open))) = [] ∧
  pending (world_of (handlePayload frame_invalid_session (after trace_open)))
    = [(5000, KConnect)].
Proof.
  destruct (handlePayload_keeps_sockets frame_ready (after trace_open))
    as (_ & _ & _ & H1 & _).
  destruct (handlePayload_keeps_sockets frame_invalid_session
              (after trace_open)) as (_ & _ & _ & _ & H2).
  split.
  - rewrite H1; [vm_compute; reflexivity|]. vm_compute. discriminate.
  - destruct H2 as [H2 _]; [reflexivity|]. rewrite H2. vm_compute. reflexivity.
Defined.

(** X9: an envelope whose opcode is none of HELLO, INVALID_SESSION and
    DISPATCH is not acted on.  A heartbeat acknowledgement is logged; any
    other opcode (a server RECONNECT or heartbeat request, an opcode that is
    no number) is logged when it can be converted to a string, and otherwise
    the handling is rejected with nothing logged.  In every case the timers,
    delays, frames and session identifier are as before. *)
Theorem handlePayload_passive payload op w :
  get_prop payload "op" = Some op →
  is_num op (OpCode_value HELLO) = false →
  is_num op (OpCode_value INVALID_SESSION) = false →
  is_num op (OpCode_value DISPATCH) = false →
  ∃ w1, timers w1 = timers w ∧
        heartbeatInterval (gw w1) = heartbeatInterval (gw w) ∧
        sockets w1 = sockets w ∧ pending w1 = pending w ∧ sent w1 = sent w ∧
        console w1 = console w ∧ sessionId (gw w1) = sessionId (gw w) ∧
        handlePayload payload w =
          if is_num op (OpCode_value HEARTBEAT_ACK)
          then Normal (log LogHeartbeatAck w1)
          else if convertible op
               then Normal (log (LogUnhandledOp op) w1)
               else Throw w1.
Proof.
  intros Hop H10 H9 H0. unfold handlePayload. rewrite Hop.
  destruct (get_prop_readable payload "op" "d" (mk_is_Some _ _ Hop)) as [d ->].
  destruct (get_prop_readable payload "op" "s" (mk_is_Some _ _ Hop)) as [s ->].
  destruct (get_prop_readable payload "op" "t" (mk_is_Some _ _ Hop)) as [t ->].
  rewrite H10, H9, H0.
  pose proof (sequence_update_frame s w) as Hw1. simpl in Hw1.
  destruct Hw1 as (H1 & _ & H2 & H3 & _ & _ & H4 & H5 & H6 & _ & H7 & _).
  by eexists.
Qed.

Lemma handlePayload_passive_witness :
  (∃ w1, console w1 = console (after trace_ready) ∧
         handlePayload (VObj [("op", VNum 7); ("d", VNull); ("s", VNull);
                              ("t", VNull)]) (after trace_ready)
         = Normal (log (LogUnhandledOp (VNum 7)) w1)) ∧
  (∃ w1, console w1 = console (after trace_ready) ∧
         handlePayload (VObj [("op", VObj [("toString", VNull)]); ("d", VNull);
                              ("s", VNull); ("t", VNull)]) (after trace_ready)
         = Throw w1).
Proof.
  split.
  - destruct (handlePayload_passive
                (VObj [("op", VNum 7); ("d", VNull); ("s", VNull); ("t", VNull)])
                (VNum 7) (after trace_ready))
      as (w1 & _ & _ & _ & _ & _ & H1 & _ & H2); try reflexivity.
    exists w1. split; [exact H1|exact H2].
  - destruct (handlePayload_passive
                (VObj [("op", VObj [("toString", VNull)]); ("d", VNull);
                       ("s", VNull); ("t", VNull)])
                (VObj [("toString", VNull)]) (after trace_ready))
      as (w1 & _ & _ & _ & _ & _ & H1 & _ & H2); try reflexivity.
    exists w1. split; [exact H1|exact H2].
Defined.

(** X10: a [connect] whose socket is constructed makes exactly one new
    socket, connecting and with the handlers attached, and holds it; every
    socket there was stays as it was, the replaced one is not closed. *)
Theorem connect_opens_fresh_socket w :
  reachable w →
  sockets w !! next_socket w = None ∧
  ws (gw (connect false w)) = Some (next_socket w) ∧
  sockets (connect false w) !! next_socket w = Some (mkSocket CONNECTING true) ∧
  ∀ s, s ≠ next_socket w → sockets (connect false w) !! s = sockets w !! s.
Proof.
  intros Hr. pose proof (rinv_fresh w (reachable_runtime_inv w Hr)) as Hf.
  split.
  { destruct (sockets w !! next_socket w) eqn:E; [|done].
    specialize (Hf _ ltac:(by eexists)). lia. }
  unfold connect, setupWebSocketHandlers. simpl. split; [done|]. split.
  - by rewrite lookup_alter, decide_True, lookup_insert_eq.
  - intros s Hne. by rewrite lookup_alter_ne, lookup_insert_ne.
Qed.

Lemma connect_opens_fresh_socket_witness :
  sockets (connect false (after trace_ready)) !! 0%nat
    = Some (mkSocket OPEN true) ∧
  sockets (connect false (after trace_ready)) !! 1%nat
    = Some (mkSocket CONNECTING true).
Proof.
  destruct (connect_opens_fresh_socket (after trace_ready))
    as (_ & _ & H1 & H2).
  - exists "token", "linux", trace_ready. vm_compute. reflexivity.
  - split; [|exact H1].
    transitivity (sockets (after trace_ready) !! 0%nat).
    + apply H2. vm_compute. discriminate.
    + vm_compute. reflexivity.
Defined.

(** X11: [disconnect] does not end the session.  The [close] event of the
    socket it closed runs the reconnect policy like any other close: below
    the ceiling an attempt is counted and a backoff delay started. *)
Theorem disconnect_then_close_reconnects s k code reason w :
  session_inv w →
  ws (gw w) = Some s → sockets w !! s = Some k → readyState k ≠ CLOSED →
  reconnectAttempts (gw w) < MAX_RECONNECT_ATTEMPTS →
  ∃ w', step (SockClose s code reason) (disconnect w) = Some w' ∧
        reconnectAttempts (gw w') = reconnectAttempts (gw w) + 1 ∧
        pending w' =
          pending w ++
          [(Z.min (1000 * 2 ^ (reconnectAttempts (gw w) + 1)) 30000, KConnect)].
Proof.
  intros Hw Hws Hk Hr Hlt. pose proof (inv_wired w Hw s k Hk) as Hwired.
  unfold disconnect.
  set (w1 := match heartbeatInterval (gw w) with
             | Some t => clearInterval t w
             | None => w
             end).
  assert (Hw1 : gw w1 = gw w ∧ sockets w1 = sockets w ∧ pending w1 = pending w).
  { subst w1. by destruct (heartbeatInterval _). }
  destruct Hw1 as (Hg & Hs & Hp). rewrite Hg, Hws.
  assert (Hlook : sockets (ws_close s w1) !! s = Some (mkSocket CLOSING true)).
  { simpl. rewrite Hs, lookup_alter, decide_True, Hk by done. simpl.
    rewrite Hwired. by destruct (readyState k). }
  cbn [step]. rewrite Hlook. cbn [readyState emit wired on_close].
  eexists. split; [done|]. unfold on_close.
  set (w2 := log (LogClosed code reason) (set_readyState s CLOSED (ws_close s w1))).
  assert (Hw2 : reconnectAttempts (gw w2) = reconnectAttempts (gw w) ∧
                pending w2 = pending w).
  { subst w2. simpl. by rewrite Hg, Hp. }
  destruct Hw2 as (Hk2 & Hp2).
  destruct (handleReconnect_counts w2) as (H1 & H2); [by rewrite Hk2|].
  by rewrite H1, H2, Hk2, Hp2.
Qed.

Lemma disconnect_then_close_reconnects_witness :
  ∃ w', step (SockClose 0%nat 1000 "") (disconnect (after trace_ready))
          = Some w' ∧
        reconnectAttempts (gw w') = 1 ∧
        pending w' = [(2000, KConnect)].
Proof.
  destruct (disconnect_then_close_reconnects 0%nat (mkSocket OPEN true)
              1000 "" (after trace_ready))
    as (w' & H1 & H2 & H3).
  - apply reachable_session_inv. exists "token", "linux", trace_ready.
    vm_compute. reflexivity.
  - vm_compute. reflexivity.
  - vm_compute. reflexivity.
  - discriminate.
  - vm_compute. reflexivity.
  - exists w'. split; [exact H1|]. split.
    + rewrite H2. vm_compute. reflexivity.
    + rewrite H3. vm_compute. reflexivity.
Defined.

(** X12: a second [disconnect] changes nothing. *)
Theorem disconnect_idempotent w : disconnect (disconnect w) = disconnect w.
Proof.
  assert (Hclose : ∀ s (m : gmap sock_id WebSocket),
            alter (λ k, match readyState k with
                        | CLOSED => k
                        | _ => mkSocket CLOSING (wired k)
                        end) s
              (alter (λ k, match readyState k with
                           | CLOSED => k
                           | _ => mkSocket CLOSING (wired k)
                           end) s m) =
            alter (λ k, match readyState k with
                        | CLOSED => k
                        | _ => mkSocket CLOSING (wired k)
                        end) s m).
  { intros s m. rewrite alter_alter_eq. apply alter_ext.
    intros [[] wd] _; done. }
  destruct w as [[wsf sq hb sid ra tk] socks ns tm nt pd st cs un pl].
  unfold disconnect. destruct hb as [t|], wsf as [s|]; simpl;
    unfold ws_close, clearInterval, with_sockets, with_timers; simpl;
    rewrite ?Hclose, ?delete_delete_eq; done.
Qed.

(** X13: [disconnect] cancels no awaited delay.  A reconnect that is waiting
    when [disconnect] is called still runs [connect] when its delay elapses,
    and the session holds a new connecting socket. *)
Theorem disconnect_keeps_pending_delay i ms k w :
  pending w !! i = Some (ms, k) →
  pending (disconnect w) = pending w ∧
  ∃ w', step (DelayElapsed i false) (disconnect w) = Some w' ∧
        ws (gw w') = Some (next_socket w) ∧
        sockets w' !! next_socket w = Some (mkSocket CONNECTING true).
Proof.
  intros Hi.
  assert (Hd : pending (disconnect w) = pending w ∧
               next_socket (disconnect w) = next_socket w).
  { unfold_methods. split_cases. }
  destruct Hd as (Hp & Hn). split; [done|].
  cbn [step]. rewrite Hp, Hi. destruct k. eexists. split; [done|].
  unfold resume, connect, setupWebSocketHandlers. simpl. rewrite Hn.
  split; [done|]. by rewrite lookup_alter, decide_True, lookup_insert_eq.
Qed.

Lemma disconnect_keeps_pending_delay_witness :
  ∃ w', step (DelayElapsed 0%nat false)
          (disconnect (after (trace_open
             ++ [SockMessage 0%nat (ParseOk frame_invalid_session)]))) = Some w' ∧
        ws (gw w') = Some 1%nat.
Proof.
  destruct (disconnect_keeps_pending_delay 0%nat 5000 KConnect
              (after (trace_open
                 ++ [SockMessage 0%nat (ParseOk frame_invalid_session)])))
    as (_ & w' & H1 & H2 & _).
  - vm_compute. reflexivity.
  - exists w'. split; [exact H1|]. rewrite H2. vm_compute. reflexivity.
Defined.

(** X14: the sequence number of a frame is the one the next heartbeat
    carries: after an envelope with [s = n] the heartbeat written to the open
    socket is [{op: 1, d: n}]. *)
Theorem sequence_echoed_in_heartbeat payload n sock w :
  get_prop payload "s" = Some (VNum n) →
  open_ws (world_of (handlePayload payload w)) = Some sock →
  sent (sendHeartbeat (world_of (handlePayload payload w))) =
  sent (world_of (handlePayload payload w)) ++
  [(sock, VObj [("op", VNum 1); ("d", VNum n)])].
Proof.
  intros Hs Ho. unfold sendHeartbeat. rewrite Ho.
  by rewrite (handlePayload_stores_number payload n w Hs).
Qed.

Lemma sequence_echoed_in_heartbeat_witness :
  sent (sendHeartbeat (world_of (handlePayload frame_ready (after trace_open)))) =
  [(0%nat, VObj [("op", VNum 1); ("d", VNum 3)])].
Proof.
  rewrite (sequence_echoed_in_heartbeat frame_ready 3 0%nat (after trace_open)).
  - vm_compute. reflexivity.
  - reflexivity.
  - vm_compute. reflexivity.
Defined.

(** X15: the heartbeat timer is touched by received frames and by
    [disconnect] only.  A socket that opens, fails or closes, a heartbeat tick,
    a [connect] and an elapsed delay all leave the armed timer armed. *)
Theorem timers_survive_transport_events e w w' :
  step e w = Some w' →
  match e with
  | SockMessage _ _ | CallDisconnect => False
  | _ => True
  end →
  timers w' = timers w ∧
  heartbeatInterval (gw w') = heartbeatInterval (gw w).
Proof.
  assert (Hrec : ∀ w0, timers (handleReconnect w0) = timers w0 ∧
                       heartbeatInterval (gw (handleReconnect w0))
                       = heartbeatInterval (gw w0)).
  { intros w0. unfold handleReconnect. by case_match. }
  assert (Hcon : ∀ b w0, timers (connect b w0) = timers w0 ∧
                         heartbeatInterval (gw (connect b w0))
                         = heartbeatInterval (gw w0)).
  { intros [] w0; [apply (Hrec (log LogConnectFailed w0))|done]. }
  intros Hstep He. destruct e; try done; simpl in Hstep.
  - injection Hstep as <-. apply Hcon.
  - destruct (sockets w !! s) as [k|]; [|done].
    destruct (readyState k); try done. injection Hstep as <-.
    unfold emit. by destruct (wired k).
  - destruct (sockets w !! s) as [k|]; [|done].
    destruct (readyState k); try done; injection Hstep as <-;
      unfold emit; by destruct (wired k).
  - destruct (sockets w !! s) as [k|]; [|done].
    destruct (readyState k); try done; injection Hstep as <-;
      unfold emit; destruct (wired k); try done;
      apply (Hrec (log (LogClosed code reason) (set_readyState s CLOSED w))).
  - destruct (timers w !! t); [|done]. injection Hstep as <-.
    unfold sendHeartbeat. by destruct (open_ws w).
  - destruct (pending w !! i) as [[ms []]|]; [|done]. injection Hstep as <-.
    apply (Hcon ctor_throws (with_pending (delete i) w)).
Qed.

Lemma timers_survive_transport_events_witness :
  ∃ w', step (SockClose 0%nat 1006 "") (after trace_ready) = Some w' ∧
        timers w' = {[ 0%nat := VNum 41250 ]}.
Proof.
  eexists. split; [vm_compute; reflexivity|].
  eapply eq_trans.
  - eapply (timers_survive_transport_events (SockClose 0%nat 1006 "")
              (after trace_ready)); [vm_compute; reflexivity|exact I].
  - vm_compute. reflexivity.
Defined.

(** X16: the bootstrap refuses a missing or empty token.  With a token, once
    the socket has opened and a HELLO with interval [N] has arrived, exactly
    one frame has been written: the IDENTIFY carrying that token, intents 513
    and the platform; and one timer is armed, at period [N]. *)
Theorem main_handshake tok plat payload d interval :
  (∀ ctor_throws,
     main None plat ctor_throws = None ∧ main (Some "") plat ctor_throws = None) ∧
  (tok ≠ "" →
   get_prop payload "op" = Some (VNum (OpCode_value HELLO)) →
   get_prop payload "d" = Some d →
   get_prop d "heartbeat_interval" = Some interval →
   ∃ w0 w',
     main (Some tok) plat false = Some w0 ∧
     run [SockOpen 0%nat; SockMessage 0%nat (ParseOk payload)] w0 = Some w' ∧
     sent w' =
       [(0%nat,
         VObj [("op", VNum 2);
               ("d", VObj [("token", VStr tok);
                           ("intents", VNum 513);
                           ("properties",
                            VObj [("os", VStr plat);
                                  ("browser", VStr "discord_gateway");
                                  ("device", VStr "discord_gateway")])])])] ∧
     timers w' = {[ 0%nat := interval ]}).
Proof.
  split; [done|]. intros Htok Hop Hd Hi.
  exists (connect false (init tok plat)).
  assert (Hmain : main (Some tok) plat false = Some (connect false (init tok plat))).
  { unfold main. by rewrite (proj2 (String.eqb_neq tok "") Htok). }
  set (w1 := emit (mkSocket CONNECTING true) on_open
               (set_readyState 0%nat OPEN (connect false (init tok plat)))).
  assert (Hstep1 : step (SockOpen 0%nat) (connect false (init tok plat)) = Some w1).
  { by vm_compute. }
  assert (Hinv1 : session_inv w1).
  { eapply session_inv_step; [exact Hstep1|].
    apply session_inv_connect, session_inv_init. }
  destruct (handlePayload_hello_effect payload d interval w1 Hinv1 Hop Hd Hi)
    as (w' & Hrun & _ & Ht & _ & _ & Hs).
  exists w'. split; [done|]. split.
  - cbn [run]. rewrite Hstep1.
    assert (Hstep2 : step (SockMessage 0%nat (ParseOk payload)) w1
                     = Some (on_message (ParseOk payload) w1)) by by vm_compute.
    rewrite Hstep2. unfold on_message. by rewrite Hrun.
  - split; [by rewrite Hs|by rewrite Ht].
Qed.

Lemma main_handshake_witness :
  ∃ w0 w',
    main (Some "token") "linux" false = Some w0 ∧
    run [SockOpen 0%nat; SockMessage 0%nat (ParseOk (frame_hello 41250))] w0
      = Some w' ∧
    timers w' = {[ 0%nat := VNum 41250 ]}.
Proof.
  destruct (main_handshake "token" "linux" (frame_hello 41250)
              (VObj [("heartbeat_interval", VNum 41250)]) (VNum 41250))
    as (_ & H).
  destruct H as (w0 & w' & H1 & H2 & _ & H3); try reflexivity.
  - discriminate.
  - exists w0, w'. split; [exact H1|]. split; [exact H2|exact H3].
Defined.

(** X17: a dispatch other than READY is not acted on, whatever its [d]: it
    is logged when its event name can be converted to a string, and otherwise
    the handling is rejected with nothing logged.  In both cases the session
    identifier, the timers, the delays and the frames written are as
    before. *)
Theorem handlePayload_dispatch_other payload t w :
  get_prop payload "op" = Some (VNum (OpCode_value DISPATCH)) →
  get_prop payload "t" = Some t →
  is_str t "READY" = false →
  ∃ w1, console w1 = console w ∧ sessionId (gw w1) = sessionId (gw w) ∧
        timers w1 = timers w ∧ sockets w1 = sockets w ∧
        pending w1 = pending w ∧ sent w1 = sent w ∧
        handlePayload payload w =
          if convertible t then Normal (log (LogDispatch t) w1) else Throw w1.
Proof.
  intros Hop Ht Hr. unfold handlePayload. rewrite Hop, Ht.
  destruct (get_prop_readable payload "op" "d" (mk_is_Some _ _ Hop)) as [d ->].
  destruct (get_prop_readable payload "op" "s" (mk_is_Some _ _ Hop)) as [s ->].
  cbn [is_num OpCode_value Z.eqb]. unfold handleDispatch. rewrite Hr.
  pose proof (sequence_update_frame s w) as Hw1. simpl in Hw1.
  destruct Hw1 as (H1 & _ & _ & H3 & _ & _ & H4 & H5 & H6 & _ & H7 & _).
  by eexists.
Qed.

Lemma handlePayload_dispatch_other_witness :
  ∃ w1, sessionId (gw w1) = VStr "abc123" ∧
        handlePayload
          (VObj [("op", VNum 0); ("t", VStr "MESSAGE_CREATE"); ("s", VNum 4);
                 ("d", VNull)]) (after trace_ready)
        = Normal (log (LogDispatch (VStr "MESSAGE_CREATE")) w1).
Proof.
  destruct (handlePayload_dispatch_other
              (VObj [("op", VNum 0); ("t", VStr "MESSAGE_CREATE"); ("s", VNum 4);
                     ("d", VNull)]) (VStr "MESSAGE_CREATE") (after trace_ready))
    as (w1 & _ & H1 & _ & _ & _ & _ & H2); try reflexivity.
  exists w1. split; [|exact H2]. rewrite H1. vm_compute. reflexivity.
Defined.

(** X18: the stored sequence number and session identifier are written by
    received frames only: a [connect], a [disconnect], a socket that opens,
    fails or closes, a tick and an elapsed delay keep both, so both are
    carried over to the next connection. *)
Theorem session_data_survives_reconnect e w w' :
  step e w = Some w' →
  match e with
  | SockMessage _ _ => False
  | _ => True
  end →
  sequence (gw w') = sequence (gw w) ∧ sessionId (gw w') = sessionId (gw w).
Proof.
  assert (Hrec : ∀ w0, sequence (gw (handleReconnect w0)) = sequence (gw w0) ∧
                       sessionId (gw (handleReconnect w0)) = sessionId (gw w0)).
  { intros w0. unfold handleReconnect. by case_match. }
  assert (Hcon : ∀ b w0, sequence (gw (connect b w0)) = sequence (gw w0) ∧
                         sessionId (gw (connect b w0)) = sessionId (gw w0)).
  { intros [] w0; [apply (Hrec (log LogConnectFailed w0))|done]. }
  intros Hstep He. destruct e; try done; simpl in Hstep.
  - injection Hstep as <-. apply Hcon.
  - injection Hstep as <-. unfold disconnect.
    destruct (heartbeatInterval (gw w)); simpl; by destruct (ws (gw w)).
  - destruct (sockets w !! s) as [k|]; [|done].
    destruct (readyState k); try done. injection Hstep as <-.
    unfold emit. by destruct (wired k).
  - destruct (sockets w !! s) as [k|]; [|done].
    destruct (readyState k); try done; injection Hstep as <-;
      unfold emit; by destruct (wired k).
  - destruct (sockets w !! s) as [k|]; [|done].
    destruct (readyState k); try done; injection Hstep as <-;
      unfold emit; destruct (wired k); try done;
      apply (Hrec (log (LogClosed code reason) (set_readyState s CLOSED w))).
  - destruct (timers w !! t); [|done]. injection Hstep as <-.
    unfold sendHeartbeat. by destruct (open_ws w).
  - destruct (pending w !! i) as [[ms []]|]; [|done]. injection Hstep as <-.
    apply (Hcon ctor_throws (with_pending (delete i) w)).
Qed.

Lemma session_data_survives_reconnect_witness :
  ∃ w', step (SockClose 0%nat 1006 "") (after trace_ready) = Some w' ∧
        sequence (gw w') = VNum 3 ∧ sessionId (gw w') = VStr "abc123".
Proof.
  eexists. split; [vm_compute; reflexivity|].
  destruct (session_data_survives_reconnect (SockClose 0%nat 1006 "")
              (after trace_ready)
              (on_close 1006 "" (set_readyState 0%nat CLOSED (after trace_ready))))
    as (H1 & H2); [vm_compute; reflexivity|exact I|].
  split.
  - eapply eq_trans; [exact H1|vm_compute; reflexivity].
  - eapply eq_trans; [exact H2|vm_compute; reflexivity].
Defined.
